(** * The books explorer: query engine and optimistic delete

    A shallow embedding of the client-side query engine ([filteredBooks] in
    components/features/BooksExplorer.tsx), of the optimistic delete protocol
    of the same component ([handleDeleteBook], [revalidateBooks]), of the
    server action [deleteBookAction] and of the search box
    (components/features/BookSearch.tsx).

    Conventions of the embedding.
    - A JavaScript string is a [string]; [toLowerCase] and [trim] are the
      ASCII fragments of the built-ins.
    - A JavaScript number is [NaN] or a finite value, the latter carried by
      the rational it denotes.  Record fields arrive as JSON, which has
      neither NaN nor infinities, so numeric record fields are rationals.
      Only the sign of a difference is ever observed by the engine, and on
      finite doubles the sign of the rounded difference is the sign of the
      exact one.
    - An optional or nullish field is an [option]. *)

From Stdlib Require Import List String Ascii Bool ZArith QArith Lia Lqa.
From Stdlib Require Import Permutation Sorted OrderedTypeEx.
Import ListNotations.

Local Open Scope string_scope.
Local Open Scope Q_scope.

(** ** JavaScript values *)

Module JS.

(** A number: NaN or finite. *)
Inductive number : Type :=
| NaN
| Fin (q : Q).

Definition num_sub (a b : number) : number :=
  match a, b with
  | Fin x, Fin y => Fin (x - y)
  | _, _ => NaN
  end.

Definition num_mul (a b : number) : number :=
  match a, b with
  | Fin x, Fin y => Fin (x * y)
  | _, _ => NaN
  end.

(** [a >= b] and [a <= b]: false as soon as one side is NaN. *)
Definition num_ge (a b : number) : bool :=
  match a, b with
  | Fin x, Fin y => Qle_bool y x
  | _, _ => false
  end.

Definition num_le (a b : number) : bool := num_ge b a.

(** ToBoolean on a number: 0 and NaN are falsy. *)
Definition truthy_number (a : number) : bool :=
  match a with
  | NaN => false
  | Fin q => negb (Qeq_bool q 0)
  end.

(** ToBoolean on a possibly undefined number. *)
Definition truthy_opt_number (a : option number) : bool :=
  match a with
  | None => false
  | Some n => truthy_number n
  end.

(** ToBoolean on a string: the empty string is falsy. *)
Definition truthy_string (s : string) : bool :=
  match s with
  | EmptyString => false
  | String _ _ => true
  end.

Definition truthy_opt_string (s : option string) : bool :=
  match s with
  | None => false
  | Some s => truthy_string s
  end.

(** [x ?? d] *)
Definition nullish {A : Type} (x : option A) (d : A) : A :=
  match x with
  | Some v => v
  | None => d
  end.

(** String.prototype.toLowerCase, on ASCII. *)
Definition lower_ascii (c : ascii) : ascii :=
  let n := nat_of_ascii c in
  if (Nat.leb 65 n && Nat.leb n 90)%bool then ascii_of_nat (n + 32) else c.

Fixpoint toLowerCase (s : string) : string :=
  match s with
  | EmptyString => EmptyString
  | String c s' => String (lower_ascii c) (toLowerCase s')
  end.

(** White space removed by String.prototype.trim, on ASCII:
    tab, line feed, vertical tab, form feed, carriage return, space. *)
Definition isWhiteSpace (c : ascii) : bool :=
  let n := nat_of_ascii c in
  (Nat.leb 9 n && Nat.leb n 13 || Nat.eqb n 32)%bool.

Fixpoint trimStart (s : string) : string :=
  match s with
  | EmptyString => EmptyString
  | String c s' => if isWhiteSpace c then trimStart s' else s
  end.

Fixpoint trimEnd (s : string) : string :=
  match s with
  | EmptyString => EmptyString
  | String c s' =>
      match trimEnd s' with
      | EmptyString => if isWhiteSpace c then EmptyString else String c EmptyString
      | r => String c r
      end
  end.

Definition trim (s : string) : string := trimEnd (trimStart s).

(** String.prototype.includes: [t] occurs in [s] at some position. *)
Fixpoint includes (s t : string) : bool :=
  (String.prefix t s ||
   match s with
   | EmptyString => false
   | String _ s' => includes s' t
   end)%bool.

End JS.

Import JS.

(** ** Data model (types/index.ts, BookSearch.tsx) *)

(** [IBook].  The engine reads [title], [author] and [price] through [??],
    so they are optional here although the interface declares them
    required. *)
Record IBook : Type := mkBook {
  id : Z;
  title : option string;
  author : option string;
  price : option Q;
  description : string;
  rating : option Q;
  reviewCount : option Z;
  pages : option Z;
  genre : option string;
  isbn : option string;
  publishedDate : option string;
  publisher : option string;
  coverImage : option string
}.

(** [FilterOptions].  A bound of [priceRange] is optional because the engine
    asks [typeof min === 'number'] before comparing. *)
Record FilterOptions : Type := mkFilters {
  f_genre : option string;
  f_priceRange : option (option number * option number);
  f_rating : option number;
  f_sortBy : option string;
  f_sortOrder : option string
}.

(** The object [{}]. *)
Definition noFilters : FilterOptions :=
  {| f_genre := None; f_priceRange := None; f_rating := None;
     f_sortBy := None; f_sortOrder := None |}.

(** ** Array.prototype.sort

    SortCompare turns the number returned by the comparator into an order,
    reading NaN as +0.  The sort itself is the stable insertion sort; for a
    consistent comparator the specification of the language fixes the result
    (see [Array_sort_unique] below), for an inconsistent one it leaves the
    order to the engine. *)

Section ArraySort.

Context {A : Type}.
Variable comparefn : A -> A -> number.

Definition SortCompare (x y : A) : comparison :=
  match comparefn x y with
  | NaN => Eq
  | Fin v => v ?= 0
  end.

(** [x] goes in front of the first element it is not greater than. *)
Fixpoint sort_insert (x : A) (l : list A) : list A :=
  match l with
  | [] => [x]
  | y :: l' =>
      match SortCompare x y with
      | Gt => y :: sort_insert x l'
      | _ => x :: l
      end
  end.

Fixpoint Array_sort (l : list A) : list A :=
  match l with
  | [] => []
  | x :: l' => sort_insert x (Array_sort l')
  end.

End ArraySort.

(** ** The query engine (BooksExplorer.tsx, [filteredBooks]) *)

Section QueryEngine.

(** String.prototype.localeCompare: negative, zero or positive. *)
Variable localeCompare : string -> string -> Z.

(** Date.parse: a time value in milliseconds, or NaN. *)
Variable Date_parse : string -> number.

(** [query.trim().toLowerCase()] *)
Definition normalizedQuery (query : string) : string :=
  toLowerCase (trim query).

(** The template literal of the text filter, lower-cased. *)
Definition haystack (b : IBook) : string :=
  toLowerCase
    (nullish (title b) "" ++ " " ++ nullish (author b) "" ++ " " ++
     nullish (isbn b) "").

Definition textStage (nq : string) (result : list IBook) : list IBook :=
  if truthy_string nq
  then filter (fun b => includes (haystack b) nq) result
  else result.

Definition genreStage (f : FilterOptions) (result : list IBook) : list IBook :=
  match f_genre f with
  | Some g =>
      if truthy_string g
      then filter (fun b =>
                     String.eqb (toLowerCase (nullish (genre b) ""))
                                (toLowerCase g)) result
      else result
  | None => result
  end.

Definition meetsMin (min : option number) (p : Q) : bool :=
  match min with
  | Some m => num_ge (Fin p) m
  | None => true
  end.

Definition meetsMax (max : option number) (p : Q) : bool :=
  match max with
  | Some m => num_le (Fin p) m
  | None => true
  end.

Definition priceStage (f : FilterOptions) (result : list IBook) : list IBook :=
  match f_priceRange f with
  | Some (min, max) =>
      if (truthy_opt_number min || truthy_opt_number max)%bool
      then filter (fun b =>
                     let p := nullish (price b) 0 in
                     (meetsMin min p && meetsMax max p)%bool) result
      else result
  | None => result
  end.

Definition ratingStage (f : FilterOptions) (result : list IBook) : list IBook :=
  match f_rating f with
  | Some r =>
      if truthy_number r
      then filter (fun b => num_ge (Fin (nullish (rating b) 0)) r) result
      else result
  | None => result
  end.

(** [filters.sortOrder === 'desc' ? -1 : 1] *)
Definition sortOrderOf (f : FilterOptions) : Q :=
  match f_sortOrder f with
  | Some o => if String.eqb o "desc" then -1 else 1
  | None => 1
  end.

(** [x.publishedDate ? Date.parse(x.publishedDate) : 0] *)
Definition dateOf (b : IBook) : number :=
  match publishedDate b with
  | Some s => if truthy_string s then Date_parse s else Fin 0
  | None => Fin 0
  end.

(** The comparator handed to [sort]: the [switch] on [filters.sortBy]. *)
Definition compareBooks (sortBy : string) (sortOrder : Q) (a b : IBook) : number :=
  if String.eqb sortBy "author" then
    Fin (inject_Z (localeCompare (nullish (author a) "") (nullish (author b) ""))
         * sortOrder)
  else if String.eqb sortBy "price" then
    Fin ((nullish (price a) 0 - nullish (price b) 0) * sortOrder)
  else if String.eqb sortBy "rating" then
    Fin ((nullish (rating a) 0 - nullish (rating b) 0) * sortOrder)
  else if String.eqb sortBy "date" then
    num_mul (num_sub (dateOf a) (dateOf b)) (Fin sortOrder)
  else
    Fin (inject_Z (localeCompare (nullish (title a) "") (nullish (title b) ""))
         * sortOrder).

Definition sortStage (f : FilterOptions) (result : list IBook) : list IBook :=
  match f_sortBy f with
  | Some s =>
      if truthy_string s
      then Array_sort (compareBooks s (sortOrderOf f)) result
      else result
  | None => result
  end.

(** The memoised view: the stages in the order of the source. *)
Definition filteredBooks (books : list IBook) (nq : string)
           (filters : FilterOptions) : list IBook :=
  sortStage filters
    (ratingStage filters
       (priceStage filters
          (genreStage filters
             (textStage nq books)))).

End QueryEngine.

(** ** Instances of the two built-ins the engine calls

    [localeCompare] and [Date.parse] are parameters of the engine.  The
    examples below run it with the code point order for the first and with
    the date-only form [YYYY-MM-DD] of the ECMAScript date-time string
    format (read as UTC midnight) for the second. *)

Definition codePointCompare (a b : string) : Z :=
  match String.compare a b with
  | Eq => 0
  | Lt => -1
  | Gt => 1
  end%Z.

Definition digitOf (c : ascii) : option Z :=
  let n := nat_of_ascii c in
  if (Nat.leb 48 n && Nat.leb n 57)%bool then Some (Z.of_nat n - 48)%Z else None.

Definition isLeapYear (y : Z) : bool :=
  ((y mod 4 =? 0) && (negb (y mod 100 =? 0) || (y mod 400 =? 0)))%bool%Z.

Definition daysInMonth (y m : Z) : Z :=
  (if m =? 2 then (if isLeapYear y then 29 else 28)
   else if (m =? 4) || (m =? 6) || (m =? 9) || (m =? 11) then 30
   else 31)%bool%Z.

(** Days between 1970-01-01 and the given civil date. *)
Definition daysFromCivil (y m d : Z) : Z :=
  (let y' := if m <=? 2 then y - 1 else y in
   let era := y' / 400 in
   let yoe := y' - era * 400 in
   let mp := if m <=? 2 then m + 9 else m - 3 in
   let doy := (153 * mp + 2) / 5 + d - 1 in
   let doe := yoe * 365 + yoe / 4 - yoe / 100 + doy in
   era * 146097 + doe - 719468)%Z.

Definition msPerDay : Z := 86400000.

Definition isoDateParse (s : string) : number :=
  match s with
  | String y1 (String y2 (String y3 (String y4 (String "-"
      (String m1 (String m2 (String "-"
        (String d1 (String d2 EmptyString))))))))) =>
      match digitOf y1, digitOf y2, digitOf y3, digitOf y4,
            digitOf m1, digitOf m2, digitOf d1, digitOf d2 with
      | Some a, Some b, Some c, Some d, Some e, Some f, Some g, Some h =>
          let y := (a * 1000 + b * 100 + c * 10 + d)%Z in
          let m := (e * 10 + f)%Z in
          let dd := (g * 10 + h)%Z in
          if ((1 <=? m) && (m <=? 12) && (1 <=? dd) && (dd <=? daysInMonth y m))%bool%Z
          then Fin (inject_Z (daysFromCivil y m dd * msPerDay))
          else NaN
      | _, _, _, _, _, _, _, _ => NaN
      end
  | _ => NaN
  end.

(** ** The explorer controller (BooksExplorer.tsx)

    An async function is a tree of synchronous state updates separated by
    awaits.  Running it against the outcomes of the awaited calls gives the
    state and the way the returned promise settles; running it up to the
    first await gives what the component shows while the call is in flight. *)

(** An [Error] and its message. *)
Inductive JSError : Type :=
| Error (message : string).

(** How a promise settles. *)
Inductive Settled (X : Type) : Type :=
| Fulfilled (v : X)
| Rejected (e : JSError).

Arguments Fulfilled {X} v.
Arguments Rejected {X} e.

(** The object returned by the server action. *)
Record ActionResult : Type := mkResult {
  success : bool;
  error : option string
}.

(** The part of a fetch [Response] the controller reads. *)
Record Response : Type := mkResponse {
  ok : bool
}.

(** The body of [GET /api/books]: [{ data }]. *)
Record BooksPayload : Type := mkPayload {
  data : option (list IBook)
}.

(** The calls the controller awaits. *)
Inductive Call : Type -> Type :=
| ImportDeleteBookAction : Call unit
| CallDeleteBookAction (bookId : Z) : Call ActionResult
| FetchBooks : Call Response
| ResponseJson (r : Response) : Call BooksPayload.

(** The state owned by [BooksExplorer], and the console. *)
Record Explorer : Type := mkExplorer {
  books : list IBook;
  isRefreshing : bool;
  query : string;
  filters : FilterOptions;
  console : list string
}.

Definition withBooks (st : Explorer) (bs : list IBook) : Explorer :=
  {| books := bs; isRefreshing := isRefreshing st; query := query st;
     filters := filters st; console := console st |}.

Definition withIsRefreshing (st : Explorer) (v : bool) : Explorer :=
  {| books := books st; isRefreshing := v; query := query st;
     filters := filters st; console := console st |}.

Definition withConsole (st : Explorer) (line : string) : Explorer :=
  {| books := books st; isRefreshing := isRefreshing st; query := query st;
     filters := filters st; console := (console st ++ [line])%list |}.

Inductive Task (R : Type) : Type :=
| Return (r : R)
| Throw (e : JSError)
| SetBooks (update : list IBook -> list IBook) (k : Task R)
| SetIsRefreshing (v : bool) (k : Task R)
| ConsoleError (label : string) (k : Task R)
| Wait {X : Type} (c : Call X) (k : Settled X -> Task R).

Arguments Return {R} r.
Arguments Throw {R} e.
Arguments SetBooks {R} update k.
Arguments SetIsRefreshing {R} v k.
Arguments ConsoleError {R} label k.
Arguments Wait {R X} c k.

(** [await c]: a rejection is thrown at the await. *)
Definition await {R X : Type} (c : Call X) (k : X -> Task R) : Task R :=
  Wait c (fun s => match s with
                   | Fulfilled v => k v
                   | Rejected e => Throw e
                   end).

(** [t; k] *)
Fixpoint andThen {R S : Type} (t : Task R) (k : R -> Task S) : Task S :=
  match t with
  | Return r => k r
  | Throw e => Throw e
  | SetBooks u t' => SetBooks u (andThen t' k)
  | SetIsRefreshing v t' => SetIsRefreshing v (andThen t' k)
  | ConsoleError l t' => ConsoleError l (andThen t' k)
  | Wait c h => Wait c (fun s => andThen (h s) k)
  end.

(** [try { body } catch (e) { handler e }] *)
Fixpoint tryCatch {R : Type} (body : Task R) (handler : JSError -> Task R) : Task R :=
  match body with
  | Return r => Return r
  | Throw e => handler e
  | SetBooks u t' => SetBooks u (tryCatch t' handler)
  | SetIsRefreshing v t' => SetIsRefreshing v (tryCatch t' handler)
  | ConsoleError l t' => ConsoleError l (tryCatch t' handler)
  | Wait c h => Wait c (fun s => tryCatch (h s) handler)
  end.

(** [try { body } finally { fin }], for a [fin] that neither returns a value
    nor throws: the completion of [body] is kept. *)
Fixpoint tryFinally {R : Type} (body : Task R) (fin : Task unit) : Task R :=
  match body with
  | Return r => andThen fin (fun _ => Return r)
  | Throw e => andThen fin (fun _ => Throw e)
  | SetBooks u t' => SetBooks u (tryFinally t' fin)
  | SetIsRefreshing v t' => SetIsRefreshing v (tryFinally t' fin)
  | ConsoleError l t' => ConsoleError l (tryFinally t' fin)
  | Wait c h => Wait c (fun s => tryFinally (h s) fin)
  end.

(** The outcomes of the awaited calls. *)
Definition World : Type := forall X : Type, Call X -> Settled X.

(** Run a task to completion. *)
Fixpoint run {R : Type} (w : World) (t : Task R) (st : Explorer)
  : Explorer * Settled R :=
  match t with
  | Return r => (st, Fulfilled r)
  | Throw e => (st, Rejected e)
  | SetBooks u t' => run w t' (withBooks st (u (books st)))
  | SetIsRefreshing v t' => run w t' (withIsRefreshing st v)
  | ConsoleError l t' => run w t' (withConsole st l)
  | Wait c h => run w (h (w _ c)) st
  end.

(** Run a task up to its first await (or to completion): the state then, and
    what is left to run. *)
Fixpoint runSync {R : Type} (t : Task R) (st : Explorer) : Explorer * Task R :=
  match t with
  | SetBooks u t' => runSync t' (withBooks st (u (books st)))
  | SetIsRefreshing v t' => runSync t' (withIsRefreshing st v)
  | ConsoleError l t' => runSync t' (withConsole st l)
  | _ => (st, t)
  end.

(** [revalidateBooks] *)
Definition revalidateBooks : Task unit :=
  tryFinally
    (tryCatch
       (SetIsRefreshing true
          (await FetchBooks (fun response =>
             if ok response
             then await (ResponseJson response) (fun freshBooks =>
                    SetBooks (fun _ => nullish (data freshBooks) []) (Return tt))
             else Return tt)))
       (fun _ => ConsoleError "Failed to revalidate books:" (Return tt)))
    (SetIsRefreshing false (Return tt)).

(** [result.error || 'Delete failed'] *)
Definition errorOr (e : option string) (d : string) : string :=
  match e with
  | Some s => if truthy_string s then s else d
  | None => d
  end.

(** [handleDeleteBook], as created by a render that saw [renderedBooks]. *)
Definition handleDeleteBook (renderedBooks : list IBook) (bookId : Z) : Task unit :=
  let originalBooks := renderedBooks in
  SetBooks (fun prevBooks => filter (fun book => negb (id book =? bookId)%Z) prevBooks)
    (tryCatch
       (await ImportDeleteBookAction (fun _ =>
        await (CallDeleteBookAction bookId) (fun result =>
          if negb (success result)
          then SetBooks (fun _ => originalBooks)
                 (Throw (Error (errorOr (error result) "Delete failed")))
          else andThen revalidateBooks (fun _ => Return tt))))
       (fun err =>
          ConsoleError "Delete failed:"
            (SetBooks (fun _ => originalBooks) (Throw err)))).

(** The [onDelete] handler of the current render. *)
Definition onDelete (st : Explorer) (bookId : Z) : Task unit :=
  handleDeleteBook (books st) bookId.

(** ** The server action (lib/actions/deleteBookAction.ts)

    [deleteBook] of lib/data is the store; the action sees how its promise
    settles. *)
Definition deleteBookAction (deleteBook : Settled unit) : ActionResult :=
  match deleteBook with
  | Fulfilled _ => {| success := true; error := None |}
  | Rejected _ => {| success := false; error := Some "Failed to delete book" |}
  end.

(** ** The search box (BookSearch.tsx) *)

(** Modelled from the spec: the hook [useDebounce] of lib/hooks/useDebounce,
    which is not part of the sources at hand.  The spec describes it as a
    cancellable delayed task with a single slot for the latest pending
    value: every new input replaces the pending value and restarts the
    timer, and the value is applied once the input has been quiet for the
    whole delay. *)
Record Debounce : Type := mkDebounce {
  debounced : string;
  pending : option (string * nat)
}.

(** Modelled from the spec: a new input replaces the pending value and
    restarts the timer. *)
Definition debounceInput (delay : nat) (v : string) (d : Debounce) : Debounce :=
  {| debounced := debounced d; pending := Some (v, delay) |}.

(** Modelled from the spec: once the delay has run out the pending value
    becomes the debounced value; until then the timer runs down. *)
Definition debounceElapse (ms : nat) (d : Debounce) : Debounce :=
  match pending d with
  | Some (v, remaining) =>
      if Nat.leb remaining ms
      then {| debounced := v; pending := None |}
      else {| debounced := debounced d; pending := Some (v, (remaining - ms)%nat) |}
  | None => d
  end.

(** The delay passed to the hook. *)
Definition searchDelay : nat := 300.

(** A call [handleFilterChange(key, value)]. *)
Inductive FilterChange : Type :=
| ChangeGenre (v : option string)
| ChangePriceRange (v : option (option number * option number))
| ChangeRating (v : option number)
| ChangeSortBy (v : option string)
| ChangeSortOrder (v : option string).

(** [{ ...filters, [key]: value }] *)
Definition spreadWith (f : FilterOptions) (c : FilterChange) : FilterOptions :=
  match c with
  | ChangeGenre v =>
      {| f_genre := v; f_priceRange := f_priceRange f; f_rating := f_rating f;
         f_sortBy := f_sortBy f; f_sortOrder := f_sortOrder f |}
  | ChangePriceRange v =>
      {| f_genre := f_genre f; f_priceRange := v; f_rating := f_rating f;
         f_sortBy := f_sortBy f; f_sortOrder := f_sortOrder f |}
  | ChangeRating v =>
      {| f_genre := f_genre f; f_priceRange := f_priceRange f; f_rating := v;
         f_sortBy := f_sortBy f; f_sortOrder := f_sortOrder f |}
  | ChangeSortBy v =>
      {| f_genre := f_genre f; f_priceRange := f_priceRange f; f_rating := f_rating f;
         f_sortBy := v; f_sortOrder := f_sortOrder f |}
  | ChangeSortOrder v =>
      {| f_genre := f_genre f; f_priceRange := f_priceRange f; f_rating := f_rating f;
         f_sortBy := f_sortBy f; f_sortOrder := v |}
  end.

(** The search box above the explorer: the state of [BookSearch], the two
    pieces of explorer state it drives through [onSearch] and [onFilter],
    and the calls made to [onSearch] so far. *)
Record SearchUI : Type := mkUI {
  searchQuery : string;
  debounce : Debounce;
  boxFilters : FilterOptions;
  explorerQuery : string;
  explorerFilters : FilterOptions;
  onSearchCalls : list string
}.

(** What the user does, and the passing of time. *)
Inductive UIEvent : Type :=
| TypeQuery (text : string)
| Elapse (ms : nat)
| HandleFilterChange (c : FilterChange)
| SelectSort (sortBy sortOrder : string).

(** The effect on [debouncedSearch]: [onSearch] runs when the value
    changes. *)
Definition afterDebounce (ui : SearchUI) (d : Debounce) : SearchUI :=
  if String.eqb (debounced d) (debounced (debounce ui))
  then {| searchQuery := searchQuery ui; debounce := d;
          boxFilters := boxFilters ui; explorerQuery := explorerQuery ui;
          explorerFilters := explorerFilters ui;
          onSearchCalls := onSearchCalls ui |}
  else {| searchQuery := searchQuery ui; debounce := d;
          boxFilters := boxFilters ui; explorerQuery := debounced d;
          explorerFilters := explorerFilters ui;
          onSearchCalls := (onSearchCalls ui ++ [debounced d])%list |}.

(** [handleFilterChange(key, value)], as created by a render that saw
    [renderedFilters]: the new filters are stored and handed to
    [onFilter]. *)
Definition handleFilterChange (renderedFilters : FilterOptions) (c : FilterChange)
           (ui : SearchUI) : SearchUI :=
  let newFilters := spreadWith renderedFilters c in
  {| searchQuery := searchQuery ui; debounce := debounce ui;
     boxFilters := newFilters; explorerQuery := explorerQuery ui;
     explorerFilters := newFilters;
     onSearchCalls := onSearchCalls ui |}.

Definition uiStep (ui : SearchUI) (e : UIEvent) : SearchUI :=
  match e with
  | TypeQuery text =>
      {| searchQuery := text;
         debounce := debounceInput searchDelay text (debounce ui);
         boxFilters := boxFilters ui; explorerQuery := explorerQuery ui;
         explorerFilters := explorerFilters ui;
         onSearchCalls := onSearchCalls ui |}
  | Elapse ms => afterDebounce ui (debounceElapse ms (debounce ui))
  | HandleFilterChange c => handleFilterChange (boxFilters ui) c ui
  | SelectSort sortBy sortOrder =>
      (* the [onChange] of the sort select: two calls from the same render *)
      handleFilterChange (boxFilters ui) (ChangeSortOrder (Some sortOrder))
        (handleFilterChange (boxFilters ui) (ChangeSortBy (Some sortBy)) ui)
  end.

Definition uiRun (ui : SearchUI) (es : list UIEvent) : SearchUI :=
  fold_left uiStep es ui.

(** Keystrokes, each followed by the time that passes before the next. *)
Fixpoint keystrokes (ks : list (string * nat)) : list UIEvent :=
  match ks with
  | [] => []
  | (text, gap) :: ks' => TypeQuery text :: Elapse gap :: keystrokes ks'
  end.

(** ** Vocabulary of the statements *)

(** [t] occurs in [s] as a substring. *)
Definition occursIn (t s : string) : Prop :=
  exists before after : string, s = before ++ t ++ after.

(** Some occurrence of [x] comes before some occurrence of [y] in [l]. *)
Definition precedes {A : Type} (x y : A) (l : list A) : Prop :=
  exists l1 l2 l3 : list A, l = (l1 ++ x :: l2 ++ y :: l3)%list.

Section Comparators.

Context {A : Type}.
Variable comparefn : A -> A -> number.

(** A consistent comparator, in the sense of the language specification:
    the order read off it is a total preorder. *)
Definition Consistent : Prop :=
  (forall x y, SortCompare comparefn x y = CompOpp (SortCompare comparefn y x)) /\
  (forall x y z, SortCompare comparefn x y <> Gt ->
                 SortCompare comparefn y z <> Gt ->
                 SortCompare comparefn x z <> Gt).

(** [x] may stand before [y]. *)
Definition notAfter (x y : A) : Prop := SortCompare comparefn x y <> Gt.

(** [x] and [y] compare equal. *)
Definition sameKey (x y : A) : bool :=
  match SortCompare comparefn x y with
  | Eq => true
  | _ => false
  end.

End Comparators.

(** A [localeCompare] that orders strings: its sign is antisymmetric and
    "not after" is transitive. *)
Definition Collation (localeCompare : string -> string -> Z) : Prop :=
  (forall a b, Z.sgn (localeCompare a b) = (- Z.sgn (localeCompare b a))%Z) /\
  (forall a b c, (localeCompare a b <= 0)%Z -> (localeCompare b c <= 0)%Z ->
                 (localeCompare a c <= 0)%Z).

(** The date of a record is absent, empty, or parses. *)
Definition dateReadable (Date_parse : string -> number) (b : IBook) : Prop :=
  dateOf Date_parse b <> NaN.

(** The time value a record is sorted by when its date is readable. *)
Definition timeValue (n : number) : Q :=
  match n with
  | Fin q => q
  | NaN => 0
  end.

Definition dateKey (Date_parse : string -> number) (b : IBook) : Q :=
  timeValue (dateOf Date_parse b).

(** The comparator [sortStage] sorts with. *)
Definition sortComparator (localeCompare : string -> string -> Z)
           (Date_parse : string -> number) (f : FilterOptions)
  : IBook -> IBook -> number :=
  compareBooks localeCompare Date_parse (nullish (f_sortBy f) "") (sortOrderOf f).

(** The same comparator with the dates read through [dateKey]: it agrees
    with [compareBooks] on readable dates and is consistent everywhere. *)
Definition readableCompare (localeCompare : string -> string -> Z)
           (Date_parse : string -> number) (sortBy : string) (sortOrder : Q)
  : IBook -> IBook -> number :=
  if String.eqb sortBy "date"
  then fun a b => Fin ((dateKey Date_parse a - dateKey Date_parse b) * sortOrder)
  else compareBooks localeCompare Date_parse sortBy sortOrder.

(** How the remote delete settles for the controller: the dynamic import
    of the action, then the call. *)
Definition deleteOutcome (w : World) (bookId : Z) : Settled ActionResult :=
  match w _ ImportDeleteBookAction with
  | Fulfilled _ => w _ (CallDeleteBookAction bookId)
  | Rejected e => Rejected e
  end.

(** The remote delete failed with the given reason: a result with
    [success: false] and a reason string, or an exception whose message is
    the reason. *)
Inductive DeleteFailed (w : World) (bookId : Z) (reason : string) : Prop :=
| FailureResult (r : ActionResult) :
    deleteOutcome w bookId = Fulfilled r ->
    success r = false -> error r = Some reason -> reason <> "" ->
    DeleteFailed w bookId reason
| FailureException :
    deleteOutcome w bookId = Rejected (Error reason) ->
    DeleteFailed w bookId reason.

(** The remote delete failed: an exception, or a result with
    [success: false]. *)
Definition DeleteRefused (w : World) (bookId : Z) : Prop :=
  (exists e, deleteOutcome w bookId = Rejected e) \/
  (exists r, deleteOutcome w bookId = Fulfilled r /\ success r = false).

Definition DeleteSucceeded (w : World) (bookId : Z) : Prop :=
  exists r, deleteOutcome w bookId = Fulfilled r /\ success r = true.

(** The reconciliation fetch failed: the request was rejected, the response
    was not ok, or its body could not be read. *)
Definition FetchFailed (w : World) : Prop :=
  (exists e, w _ FetchBooks = Rejected e) \/
  (exists resp, w _ FetchBooks = Fulfilled resp /\ ok resp = false) \/
  (exists resp e, w _ FetchBooks = Fulfilled resp /\ ok resp = true /\
                  w _ (ResponseJson resp) = Rejected e).

(** The reconciliation fetch returned the given records. *)
Definition FetchReturned (w : World) (fresh : list IBook) : Prop :=
  exists resp, w _ FetchBooks = Fulfilled resp /\ ok resp = true /\
               w _ (ResponseJson resp) = Fulfilled {| data := Some fresh |}.

(** The collection without the record of the given id. *)
Definition without (bookId : Z) (l : list IBook) : list IBook :=
  filter (fun book => negb (id book =? bookId)%Z) l.

(** A world for the examples: the delete settles as given, the fetch as
    given. *)
Definition scriptedWorld (del : Settled ActionResult)
           (fetched : Settled Response) (body : Settled BooksPayload) : World :=
  fun X c =>
    match c in Call X return Settled X with
    | ImportDeleteBookAction => Fulfilled tt
    | CallDeleteBookAction _ => del
    | FetchBooks => fetched
    | ResponseJson _ => body
    end.

Definition idle (l : list IBook) : Explorer :=
  {| books := l; isRefreshing := false; query := ""; filters := noFilters;
     console := [] |}.

(** The examples: three titles, and two books [A(id=1)], [B(id=2)]. *)
Definition book (i : Z) (t a : string) (p : Q) (d : option string) : IBook :=
  {| id := i; title := Some t; author := Some a; price := Some p;
     description := ""; rating := None; reviewCount := None; pages := None;
     genre := None; isbn := None; publishedDate := d; publisher := None;
     coverImage := None |}.

Definition bookA : IBook := book 1 "A" "Ann" 12 None.
Definition bookB : IBook := book 2 "B" "Bob" 8 None.

(** ** The route [GET /api/books] (app/api/books/route.ts) *)

(** The JSON object the route answers with; the explorer reads [data]. *)
Record RouteBody : Type := mkRouteBody {
  rb_success : option bool;
  rb_error : option string;
  rb_data : option (list IBook)
}.

Record RouteResponse : Type := mkRouteResponse {
  rr_status : Z;
  rr_body : RouteBody
}.

(** [GET]: the answer of [getBooks] as it is, or the error body with
    status 500. *)
Definition booksRoute (getBooks : Settled RouteBody) : RouteResponse :=
  match getBooks with
  | Fulfilled response => {| rr_status := 200; rr_body := response |}
  | Rejected _ =>
      {| rr_status := 500;
         rr_body := {| rb_success := Some false;
                       rb_error := Some "Failed to fetch books";
                       rb_data := Some [] |} |}
  end.

(** What [fetch] makes of an answer of the route: [ok] is a status from 200
    to 299, the body is the JSON sent. *)
Definition fetched (r : RouteResponse) : Response :=
  {| ok := ((200 <=? rr_status r) && (rr_status r <=? 299))%bool%Z |}.

Definition servedBy (del : Settled ActionResult) (r : RouteResponse) : World :=
  scriptedWorld del (Fulfilled (fetched r))
                (Fulfilled {| data := rb_data (rr_body r) |}).

(** ** The controls of the search box (BookSearch.tsx) *)

(** [x || d] on a possibly undefined number. *)
Definition orNumber (x : option number) (d : number) : number :=
  match x with
  | Some n => if truthy_number n then n else d
  | None => d
  end.

(** [filters.priceRange?.[0]] and [filters.priceRange?.[1]] *)
Definition rangeMin (f : FilterOptions) : option number :=
  match f_priceRange f with
  | Some (lo, _) => lo
  | None => None
  end.

Definition rangeMax (f : FilterOptions) : option number :=
  match f_priceRange f with
  | Some (_, hi) => hi
  | None => None
  end.

(** What the user can do in the box.  The number inputs and the rating
    select hand over [Number(e.target.value)]; the sort select hands over
    the two halves of the chosen option. *)
Inductive Control : Type :=
| SearchInput (text : string)
| TimePasses (ms : nat)
| GenreSelect (value : string)
| MinInput (value : number)
| MaxInput (value : number)
| RatingSelect (value : number)
| SortSelect (sortBy sortOrder : string)
| ClearAll.

(** [clearFilters] *)
Definition clearFilters (ui : SearchUI) : SearchUI :=
  {| searchQuery := searchQuery ui; debounce := debounce ui;
     boxFilters := noFilters; explorerQuery := explorerQuery ui;
     explorerFilters := noFilters;
     onSearchCalls := onSearchCalls ui |}.

(** The [onChange] and [onClick] handlers of the controls. *)
Definition controlStep (ui : SearchUI) (c : Control) : SearchUI :=
  match c with
  | SearchInput text => uiStep ui (TypeQuery text)
  | TimePasses ms => uiStep ui (Elapse ms)
  | GenreSelect value =>
      handleFilterChange (boxFilters ui)
        (ChangeGenre (if truthy_string value then Some value else None)) ui
  | MinInput min =>
      let max := orNumber (rangeMax (boxFilters ui)) (Fin 999) in
      handleFilterChange (boxFilters ui)
        (ChangePriceRange
           (if truthy_number min then Some (Some min, Some max) else None)) ui
  | MaxInput max =>
      let min := orNumber (rangeMin (boxFilters ui)) (Fin 0) in
      handleFilterChange (boxFilters ui)
        (ChangePriceRange
           (if truthy_number max then Some (Some min, Some max) else None)) ui
  | RatingSelect value =>
      handleFilterChange (boxFilters ui)
        (ChangeRating (if truthy_number value then Some value else None)) ui
  | SortSelect sortBy sortOrder => uiStep ui (SelectSort sortBy sortOrder)
  | ClearAll => clearFilters ui
  end.

Definition controlRun (ui : SearchUI) (cs : list Control) : SearchUI :=
  fold_left controlStep cs ui.

(** The box as it is mounted. *)
Definition mountedUI : SearchUI :=
  {| searchQuery := ""; debounce := {| debounced := ""; pending := None |};
     boxFilters := noFilters; explorerQuery := "";
     explorerFilters := noFilters; onSearchCalls := [""] |}.

(** ** The file check of the upload route (app/api/upload/route.ts) *)

(** The part of a [File] the check reads. *)
Record UploadFile : Type := mkFile {
  file_type : string;
  file_size : Z
}.

Definition ALLOWED_FILE_TYPES : list string :=
  ["image/jpeg"; "image/jpg"; "image/png"; "image/webp"].

Definition MAX_FILE_SIZE : Z := 5 * 1024 * 1024.

(** [validateFile]: the error message, or [None] for [null]. *)
Definition validateFile (file : option UploadFile) : option string :=
  match file with
  | None => Some "No file provided"
  | Some f =>
      if negb (existsb (String.eqb (file_type f)) ALLOWED_FILE_TYPES)
      then Some "Invalid file type. Only JPG, PNG, and WebP are allowed."
      else if (file_size f >? MAX_FILE_SIZE)%Z
           then Some "File size must be less than 5MB."
           else None
  end.

(** ** The file check of the cover upload (components/BookCoverUpload.tsx) *)

(** [validateFile] of the component, with its own list and bound. *)
Definition coverValidateFile (file : UploadFile) : option string :=
  let allowedTypes := ["image/jpeg"; "image/jpg"; "image/png"; "image/webp"] in
  let maxSize := (5 * 1024 * 1024)%Z in
  if negb (existsb (String.eqb (file_type file)) allowedTypes)
  then Some "Please select an image file (JPG, PNG, WebP)"
  else if (file_size file >? maxSize)%Z
       then Some "File size must be less than 5MB"
       else None.

(** ** The book form (components/BookForm.tsx) *)

(** [s || d] on a possibly undefined string. *)
Definition orString (s : option string) (d : string) : string :=
  match s with
  | Some v => if truthy_string v then v else d
  | None => d
  end.

(** [x || 0] on numbers of the record. *)
Definition orZeroQ (x : option Q) : Q :=
  match x with
  | Some q => if Qeq_bool q 0 then 0 else q
  | None => 0
  end.

Definition orZeroZ (x : option Z) : Z :=
  match x with
  | Some z => z
  | None => 0
  end.

(** [x || d] on an id. *)
Definition orId (x : option Z) (d : Z) : Z :=
  match x with
  | Some z => if (z =? 0)%Z then d else z
  | None => d
  end.

(** [formData]: every key is set when the form is created and stays set. *)
Record BookFormData : Type := mkForm {
  fd_title : string;
  fd_author : string;
  fd_price : Q;
  fd_description : string;
  fd_rating : Q;
  fd_reviewCount : Z;
  fd_pages : Z;
  fd_genre : string;
  fd_isbn : string;
  fd_publishedDate : string;
  fd_publisher : string;
  fd_coverImage : string
}.

(** [book?.field]: the field of the edited book, when there is one. *)
Definition ofBook {A : Type} (book : option IBook) (field : IBook -> option A)
  : option A :=
  match book with
  | Some b => field b
  | None => None
  end.

(** The initial state of [formData]. *)
Definition initialFormData (book : option IBook) : BookFormData :=
  {| fd_title := orString (ofBook book title) "";
     fd_author := orString (ofBook book author) "";
     fd_price := orZeroQ (ofBook book price);
     fd_description := orString (ofBook book (fun b => Some (description b))) "";
     fd_rating := orZeroQ (ofBook book rating);
     fd_reviewCount := orZeroZ (ofBook book reviewCount);
     fd_pages := orZeroZ (ofBook book pages);
     fd_genre := orString (ofBook book genre) "";
     fd_isbn := orString (ofBook book isbn) "";
     fd_publishedDate := orString (ofBook book publishedDate) "";
     fd_publisher := orString (ofBook book publisher) "";
     fd_coverImage := orString (ofBook book coverImage) "" |}.

(** [handleSubmit]: the record handed to [onSubmit], or [None] when the
    form alerts and returns.  [now] is [Date.now()]. *)
Definition formSubmit (book : option IBook) (now : Z) (formData : BookFormData)
  : option IBook :=
  if (negb (truthy_string (fd_title formData)) ||
      negb (truthy_string (fd_author formData)))%bool
  then None
  else Some {| id := orId (ofBook book (fun b => Some (id b))) now;
               title := Some (fd_title formData);
               author := Some (fd_author formData);
               price := Some (orZeroQ (Some (fd_price formData)));
               description := orString (Some (fd_description formData)) "";
               rating := Some (fd_rating formData);
               reviewCount := Some (fd_reviewCount formData);
               pages := Some (fd_pages formData);
               genre := Some (fd_genre formData);
               isbn := Some (fd_isbn formData);
               publishedDate := Some (fd_publishedDate formData);
               publisher := Some (fd_publisher formData);
               coverImage := Some (fd_coverImage formData) |}.

(** ** Vocabulary for the filters *)

(** A number that is neither 0 nor NaN. *)
Definition Truthy (n : number) : Prop :=
  match n with
  | NaN => False
  | Fin q => ~ q == 0
  end.

(** [a <= b] on numbers: never with NaN. *)
Definition numLe (a b : number) : Prop :=
  match a, b with
  | Fin x, Fin y => x <= y
  | _, _ => False
  end.

(** The record passes the text filter for the normalised query [nq]. *)
Definition textMatches (nq : string) (b : IBook) : Prop :=
  nq <> "" -> occursIn nq (haystack b).

(** The record passes the genre filter. *)
Definition genreMatches (f : FilterOptions) (b : IBook) : Prop :=
  forall g, f_genre f = Some g -> g <> "" ->
            toLowerCase (nullish (genre b) "") = toLowerCase g.

(** The record passes the price filter. *)
Definition priceMatches (f : FilterOptions) (b : IBook) : Prop :=
  forall lo hi, f_priceRange f = Some (lo, hi) ->
    ((exists m, lo = Some m /\ Truthy m) \/ (exists m, hi = Some m /\ Truthy m)) ->
    (forall m, lo = Some m -> numLe m (Fin (nullish (price b) 0))) /\
    (forall m, hi = Some m -> numLe (Fin (nullish (price b) 0)) m).

(** The record passes the rating filter. *)
Definition ratingMatches (f : FilterOptions) (b : IBook) : Prop :=
  forall r, f_rating f = Some r -> Truthy r ->
            numLe r (Fin (nullish (rating b) 0)).

(** The four filters of the engine, without the sort. *)
Definition filterStages (nq : string) (f : FilterOptions) (l : list IBook)
  : list IBook :=
  ratingStage f (priceStage f (genreStage f (textStage nq l))).

(** A string of white space only. *)
Definition blank (w : string) : Prop :=
  forall c, In c (list_ascii_of_string w) -> isWhiteSpace c = true.

(** A rated book for the examples. *)
Definition ratedBook (i : Z) (p r : Q) : IBook :=
  {| id := i; title := Some "T"; author := Some "A"; price := Some p;
     description := ""; rating := Some r; reviewCount := None; pages := None;
     genre := None; isbn := None; publishedDate := None; publisher := None;
     coverImage := None |}.

(** * Facts *)

(** ** Strings *)

Lemma prefix_iff (t s : string) :
  String.prefix t s = true <-> exists rest, s = t ++ rest.
Proof.
  revert s; induction t as [|c t IH]; intros s.
  - split; [intros _; now exists s | intros _; now destruct s].
  - destruct s as [|d s]; simpl.
    + split; [discriminate | intros [r Hr]; discriminate].
    + destruct (Ascii.ascii_dec c d) as [E|Hne].
      * rewrite IH. split; intros [r Hr]; exists r.
        -- now rewrite Hr, E.
        -- now inversion Hr.
      * split; [discriminate | intros [r Hr]; injection Hr as E1 E2; congruence].
Qed.

Lemma includes_nil (t : string) : includes "" t = String.prefix t "".
Proof. cbn [includes]. apply orb_false_r. Qed.

Lemma includes_cons (c : ascii) (s t : string) :
  includes (String c s) t = (String.prefix t (String c s) || includes s t)%bool.
Proof. reflexivity. Qed.

Lemma includes_iff (s t : string) :
  includes s t = true <-> occursIn t s.
Proof.
  unfold occursIn. induction s as [|c s IH].
  - rewrite includes_nil, prefix_iff. split.
    + intros [r Hr]. now exists "", r.
    + intros [p [q H]]. destruct p; simpl in H; [now exists q | discriminate].
  - rewrite includes_cons, orb_true_iff, prefix_iff, IH. split.
    + intros [[r Hr] | [p [q H]]].
      * now exists "", r.
      * exists (String c p), q. simpl. now rewrite H.
    + intros [p [q H]]. destruct p as [|d p]; simpl in H.
      * left. now exists q.
      * right. injection H as _ H. now exists p, q.
Qed.

Lemma truthy_string_iff (s : string) : truthy_string s = true <-> s <> "".
Proof. destruct s; simpl; split; congruence. Qed.

(** ** The filter stages *)

Lemma stages_noFilters lc dp (l : list IBook) :
  sortStage lc dp noFilters
    (ratingStage noFilters (priceStage noFilters (genreStage noFilters l))) = l.
Proof. reflexivity. Qed.

(** C7.  For a term that is non-empty once trimmed and lower-cased, the view
    under the text filter alone is the collection, in its order, restricted
    to the records whose lower-cased [title + " " + author + " " + isbn]
    (missing fields read as the empty string) contains the normalised term
    as a substring. *)
Theorem text_filter_retains_matches :
  forall lc dp (books : list IBook) (term : string),
    normalizedQuery term <> "" ->
    filteredBooks lc dp books (normalizedQuery term) noFilters
    = filter (fun b => includes (haystack b) (normalizedQuery term)) books
    /\ (forall b, haystack b
                  = toLowerCase (nullish (title b) "" ++ " " ++
                                 nullish (author b) "" ++ " " ++
                                 nullish (isbn b) ""))
    /\ (forall b, In b (filteredBooks lc dp books (normalizedQuery term) noFilters)
                  <-> In b books /\ occursIn (normalizedQuery term) (haystack b)).
Proof.
  intros lc dp books term Hne.
  assert (E : filteredBooks lc dp books (normalizedQuery term) noFilters
              = filter (fun b => includes (haystack b) (normalizedQuery term)) books).
  { unfold filteredBooks. rewrite stages_noFilters. unfold textStage.
    apply truthy_string_iff in Hne. now rewrite Hne. }
  split; [exact E | split; [reflexivity |]].
  intros b. rewrite E, filter_In, includes_iff. reflexivity.
Qed.

(** The scenario of C7: titles Alpha, Beta, alphabet and the term "alph". *)
Lemma text_filter_retains_matches_witness :
  normalizedQuery "alph" <> "" /\
  map title
    (filteredBooks codePointCompare isoDateParse
       [book 1 "Alpha" "Ann" 5 None; book 2 "Beta" "Bob" 6 None;
        book 3 "alphabet" "Cy" 7 None]
       (normalizedQuery "alph") noFilters)
  = [Some "Alpha"; Some "alphabet"].
Proof.
  split; [discriminate |].
  rewrite (proj1 (text_filter_retains_matches codePointCompare isoDateParse _ "alph"
                    ltac:(discriminate))).
  reflexivity.
Defined.

(** A finite bound, when present. *)
Lemma meetsMin_iff (min : option Q) (p : Q) :
  meetsMin (option_map Fin min) p = true <-> (forall m, min = Some m -> m <= p).
Proof.
  destruct min as [m|]; simpl.
  - rewrite Qle_bool_iff. split; [intros H m' E; injection E as <-; exact H | auto].
  - split; [discriminate | reflexivity].
Qed.

Lemma meetsMax_iff (max : option Q) (p : Q) :
  meetsMax (option_map Fin max) p = true <-> (forall m, max = Some m -> p <= m).
Proof.
  destruct max as [m|]; simpl.
  - unfold num_le; simpl. rewrite Qle_bool_iff.
    split; [intros H m' E; injection E as <-; exact H | auto].
  - split; [discriminate | reflexivity].
Qed.

(** What the price stage keeps: everything when both bounds are falsy,
    otherwise the records within the bounds, ends included. *)
Lemma priceStage_In (f : FilterOptions) (min max : option Q) (l : list IBook) (b : IBook) :
  f_priceRange f = Some (option_map Fin min, option_map Fin max) ->
  In b (priceStage f l) <->
  In b l /\
  ((truthy_opt_number (option_map Fin min) || truthy_opt_number (option_map Fin max))%bool = true ->
   (forall m, min = Some m -> m <= nullish (price b) 0) /\
   (forall m, max = Some m -> nullish (price b) 0 <= m)).
Proof.
  intros E. unfold priceStage. rewrite E.
  destruct (truthy_opt_number (option_map Fin min) || truthy_opt_number (option_map Fin max))%bool.
  - rewrite filter_In, andb_true_iff, meetsMin_iff, meetsMax_iff. tauto.
  - split; [intros H; split; [exact H | discriminate] | tauto].
Qed.

(** C6.  The price filter is inclusive at both ends: a record of the
    collection whose price (0 when missing) is at least the lower bound,
    when there is one, and at most the upper bound, when there is one, is
    kept by the price stage. *)
Theorem price_filter_inclusive :
  forall (f : FilterOptions) (min max : option Q) (books : list IBook) (b : IBook),
    f_priceRange f = Some (option_map Fin min, option_map Fin max) ->
    In b books ->
    (forall m, min = Some m -> m <= nullish (price b) 0) ->
    (forall m, max = Some m -> nullish (price b) 0 <= m) ->
    In b (priceStage f books).
Proof.
  intros f min max books b E Hin Hlo Hhi.
  apply (priceStage_In f min max books b E). auto.
Qed.

(** The scenario of C6: a free book and the range [[0, 10]]. *)
Lemma price_filter_inclusive_witness :
  let free := book 7 "Free" "Ann" 0 None in
  let f := spreadWith noFilters (ChangePriceRange (Some (Some (Fin 0), Some (Fin 10)))) in
  price free = Some 0 /\
  In free (priceStage f [bookA; free; bookB]) /\
  filteredBooks codePointCompare isoDateParse [bookA; free; book 9 "Dear" "Cy" 11 None] "" f
  = [free].
Proof.
  intros free f. split; [reflexivity | split; [| reflexivity]].
  apply (price_filter_inclusive f (Some 0) (Some 10) [bookA; free; bookB] free).
  - reflexivity.
  - simpl; auto.
  - intros m E; inversion E; subst; simpl. apply Qle_refl.
  - intros m E; inversion E; subst; simpl. discriminate.
Defined.

(** C10.  A rating threshold of 0 is falsy, so the rating stage is skipped:
    every record is kept, rated or not, and the view is the one obtained
    with no rating filter at all. *)
Theorem zero_rating_threshold_is_no_filter :
  forall lc dp (books : list IBook) (nq : string) (f : FilterOptions) (z : Q),
    z == 0 ->
    ratingStage (spreadWith f (ChangeRating (Some (Fin z)))) books = books /\
    filteredBooks lc dp books nq (spreadWith f (ChangeRating (Some (Fin z))))
    = filteredBooks lc dp books nq (spreadWith f (ChangeRating None)).
Proof.
  intros lc dp books nq f z Hz.
  assert (T : truthy_number (Fin z) = false).
  { simpl. apply negb_false_iff. now apply Qeq_bool_iff. }
  split.
  - unfold ratingStage. cbn [spreadWith f_rating]. now rewrite T.
  - unfold filteredBooks, ratingStage, sortStage, sortOrderOf, priceStage, genreStage.
    cbn [spreadWith f_rating f_genre f_priceRange f_sortBy f_sortOrder].
    now rewrite T.
Qed.

(** A threshold of 0 over a collection with an unrated book. *)
Lemma zero_rating_threshold_is_no_filter_witness :
  0 == 0 /\
  filteredBooks codePointCompare isoDateParse [bookA; bookB] ""
    (spreadWith noFilters (ChangeRating (Some (Fin 0))))
  = [bookA; bookB].
Proof.
  split; [reflexivity |].
  rewrite (proj2 (zero_rating_threshold_is_no_filter codePointCompare isoDateParse
                    [bookA; bookB] "" noFilters 0 ltac:(reflexivity))).
  reflexivity.
Defined.

(** ** The sort *)

Section ArraySortFacts.

Context {A : Type}.
Variable comparefn : A -> A -> number.

Local Abbreviation cmp := (SortCompare comparefn).
Local Abbreviation sort := (Array_sort comparefn).
Local Abbreviation ins := (sort_insert comparefn).

Lemma sort_insert_perm (x : A) (l : list A) : Permutation (x :: l) (ins x l).
Proof.
  induction l as [|y l IH]; simpl; [reflexivity |].
  destruct (cmp x y); try reflexivity.
  rewrite perm_swap. now apply perm_skip.
Qed.

Lemma Array_sort_perm (l : list A) : Permutation l (sort l).
Proof.
  induction l as [|x l IH]; simpl; [constructor |].
  rewrite <- sort_insert_perm. now apply perm_skip.
Qed.

Lemma Array_sort_In (l : list A) (x : A) : In x (sort l) <-> In x l.
Proof.
  split; apply Permutation_in;
    [apply Permutation_sym |]; apply Array_sort_perm.
Qed.

Lemma Array_sort_length (l : list A) : List.length (sort l) = List.length l.
Proof. symmetry. apply Permutation_length, Array_sort_perm. Qed.

Hypothesis consistent : Consistent comparefn.

Lemma cmp_antisym (x y : A) : cmp x y = CompOpp (cmp y x).
Proof. apply consistent. Qed.

Lemma notAfter_trans (x y z : A) :
  notAfter comparefn x y -> notAfter comparefn y z -> notAfter comparefn x z.
Proof. apply consistent. Qed.

Lemma cmp_Gt_notAfter (x y : A) : cmp x y = Gt -> notAfter comparefn y x.
Proof.
  unfold notAfter. intros H. rewrite cmp_antisym, H. discriminate.
Qed.

Lemma sameKey_notAfter (x y : A) :
  sameKey comparefn x y = true ->
  notAfter comparefn x y /\ notAfter comparefn y x.
Proof.
  unfold sameKey, notAfter. intros H.
  destruct (cmp x y) eqn:E; try discriminate.
  split; [discriminate |]. rewrite cmp_antisym, E. discriminate.
Qed.

Lemma notAfter_sameKey (x y : A) :
  notAfter comparefn x y -> notAfter comparefn y x ->
  sameKey comparefn x y = true.
Proof.
  unfold sameKey, notAfter. intros H1 H2. rewrite (cmp_antisym y x) in H2.
  destruct (cmp x y); [reflexivity | now elim H2 | now elim H1].
Qed.

Lemma sameKey_refl (x : A) : sameKey comparefn x x = true.
Proof.
  assert (H : notAfter comparefn x x).
  { unfold notAfter. intros E. pose proof (cmp_antisym x x) as H.
    rewrite E in H. discriminate. }
  now apply notAfter_sameKey.
Qed.

Lemma sort_insert_sorted (x : A) (l : list A) :
  StronglySorted (notAfter comparefn) l ->
  StronglySorted (notAfter comparefn) (ins x l).
Proof.
  induction 1 as [|y l Hs IH Hy]; simpl.
  - repeat constructor.
  - destruct (cmp x y) eqn:E.
    + constructor; [now constructor |].
      assert (Hxy : notAfter comparefn x y) by (unfold notAfter; congruence).
      constructor; [exact Hxy |].
      eapply Forall_impl; [| exact Hy]. intros z Hz.
      now apply notAfter_trans with y.
    + constructor; [now constructor |].
      assert (Hxy : notAfter comparefn x y) by (unfold notAfter; congruence).
      constructor; [exact Hxy |].
      eapply Forall_impl; [| exact Hy]. intros z Hz.
      now apply notAfter_trans with y.
    + constructor; [exact IH |].
      apply Forall_forall. intros z Hz.
      apply (Permutation_in _ (Permutation_sym (sort_insert_perm x l))) in Hz.
      destruct Hz as [<- | Hz].
      * now apply cmp_Gt_notAfter.
      * rewrite Forall_forall in Hy. now apply Hy.
Qed.

(** The output is in order. *)
Lemma Array_sort_sorted (l : list A) :
  StronglySorted (notAfter comparefn) (sort l).
Proof.
  induction l as [|x l IH]; simpl; [constructor |].
  now apply sort_insert_sorted.
Qed.

Lemma sort_insert_stable (k x : A) (l : list A) :
  filter (sameKey comparefn k) (ins x l) = filter (sameKey comparefn k) (x :: l).
Proof.
  induction l as [|y l IH]; [reflexivity |].
  cbn [sort_insert]. destruct (cmp x y) eqn:E; try reflexivity.
  cbn [filter] in *. rewrite IH.
  destruct (sameKey comparefn k x) eqn:Kx; [| reflexivity].
  destruct (sameKey comparefn k y) eqn:Ky; [| reflexivity].
  exfalso.
  apply sameKey_notAfter in Kx, Ky.
  assert (H : notAfter comparefn x y).
  { apply notAfter_trans with k; tauto. }
  now apply H.
Qed.

(** The output is stable: the records that compare equal to any given one
    come out in the order they went in. *)
Lemma Array_sort_stable (k : A) (l : list A) :
  filter (sameKey comparefn k) (sort l) = filter (sameKey comparefn k) l.
Proof.
  induction l as [|x l IH]; [reflexivity |].
  cbn [Array_sort]. rewrite sort_insert_stable. cbn [filter]. now rewrite IH.
Qed.

(** An ordered list is determined by its classes of equal keys. *)
Lemma sorted_classes_unique (l1 l2 : list A) :
  StronglySorted (notAfter comparefn) l1 ->
  StronglySorted (notAfter comparefn) l2 ->
  (forall k, filter (sameKey comparefn k) l1 = filter (sameKey comparefn k) l2) ->
  l1 = l2.
Proof.
  intros S1; revert l2.
  induction S1 as [|a l1 S1 IH Ha]; intros l2 S2 HF.
  - destruct l2 as [|b l2]; [reflexivity |].
    specialize (HF b). cbn [filter] in HF.
    rewrite sameKey_refl in HF. discriminate.
  - pose proof (sameKey_refl a) as Raa.
    destruct l2 as [|b l2].
    { specialize (HF a). cbn [filter] in HF. rewrite Raa in HF. discriminate. }
    pose proof (sameKey_refl b) as Rbb.
    inversion S2 as [|b' l2' S2' Hb]; subst.
    rewrite Forall_forall in Ha, Hb.
    assert (Hab : notAfter comparefn a b).
    { pose proof (HF b) as Hb'. cbn [filter] in Hb'. rewrite Rbb in Hb'.
      destruct (sameKey comparefn b a) eqn:Kba.
      - now apply sameKey_notAfter in Kba.
      - assert (Hin : In b (filter (sameKey comparefn b) l1)).
        { rewrite Hb'. now left. }
        apply filter_In in Hin. now apply Ha. }
    assert (Hba : notAfter comparefn b a).
    { pose proof (HF a) as Ha'. cbn [filter] in Ha'. rewrite Raa in Ha'.
      destruct (sameKey comparefn a b) eqn:Kab.
      - now apply sameKey_notAfter in Kab.
      - assert (Hin : In a (filter (sameKey comparefn a) l2)).
        { rewrite <- Ha'. now left. }
        apply filter_In in Hin. now apply Hb. }
    pose proof (HF a) as Ea. cbn [filter] in Ea.
    rewrite Raa, (notAfter_sameKey a b Hab Hba) in Ea.
    injection Ea as Eab _. subst b. f_equal.
    apply IH; [exact S2' |]. intros k.
    specialize (HF k). cbn [filter] in HF.
    destruct (sameKey comparefn k a); [now injection HF | exact HF].
Qed.

(** Every ordered, stable rearrangement of [l] is [Array_sort l]: for a
    consistent comparator the result does not depend on the algorithm. *)
Lemma Array_sort_unique (l l' : list A) :
  StronglySorted (notAfter comparefn) l' ->
  (forall k, filter (sameKey comparefn k) l' = filter (sameKey comparefn k) l) ->
  l' = sort l.
Proof.
  intros S HF. apply sorted_classes_unique; [exact S | apply Array_sort_sorted |].
  intros k. now rewrite HF, Array_sort_stable.
Qed.

End ArraySortFacts.

(** Two comparators that agree on the elements of a list sort it alike. *)
Lemma sort_insert_ext {A : Type} (c1 c2 : A -> A -> number) (x : A) (l : list A) :
  (forall y, In y l -> SortCompare c1 x y = SortCompare c2 x y) ->
  sort_insert c1 x l = sort_insert c2 x l.
Proof.
  induction l as [|y l IH]; intros H; [reflexivity |].
  cbn [sort_insert]. rewrite <- (H y (or_introl eq_refl)).
  destruct (SortCompare c1 x y); try reflexivity.
  f_equal. apply IH. intros z Hz. apply H. now right.
Qed.

Lemma Array_sort_ext {A : Type} (c1 c2 : A -> A -> number) (l : list A) :
  (forall x y, In x l -> In y l -> SortCompare c1 x y = SortCompare c2 x y) ->
  Array_sort c1 l = Array_sort c2 l.
Proof.
  induction l as [|x l IH]; intros H; [reflexivity |].
  cbn [Array_sort]. rewrite <- IH.
  - apply sort_insert_ext. intros y Hy. apply Array_sort_In in Hy.
    apply H; [now left | now right].
  - intros a b Ha Hb. apply H; now right.
Qed.

(** ** The comparators of the engine *)

Lemma Qcompare_diff (x y : Q) : (x - y ?= 0) = (x ?= y).
Proof.
  destruct (Qcompare_spec (x - y) 0), (Qcompare_spec x y);
    try reflexivity; exfalso; lra.
Qed.

Lemma Qcompare_times_1 (d : Q) : (d * 1 ?= 0) = (d ?= 0).
Proof.
  destruct (Qcompare_spec (d * 1) 0), (Qcompare_spec d 0);
    try reflexivity; exfalso; lra.
Qed.

Lemma Qcompare_times_m1 (d : Q) : (d * -1 ?= 0) = CompOpp (d ?= 0).
Proof.
  destruct (Qcompare_spec (d * -1) 0), (Qcompare_spec d 0);
    try reflexivity; exfalso; lra.
Qed.

Lemma Qcompare_inject_Z (z : Z) : (inject_Z z ?= 0) = (z ?= 0)%Z.
Proof. unfold Qcompare, inject_Z; simpl. now rewrite Z.mul_1_r. Qed.

Lemma sortOrderOf_cases (f : FilterOptions) : sortOrderOf f = 1 \/ sortOrderOf f = -1.
Proof.
  unfold sortOrderOf. destruct (f_sortOrder f) as [o|]; [| now left].
  destruct (String.eqb o "desc"); [now right | now left].
Qed.

(** A comparator that subtracts numeric keys is consistent, both ways. *)
Lemma numeric_key_consistent {A : Type} (key : A -> Q) (o : Q) :
  o = 1 \/ o = -1 ->
  Consistent (fun a b => Fin ((key a - key b) * o)).
Proof.
  intros [-> | ->]; split; unfold SortCompare.
  - intros x y. rewrite !Qcompare_times_1, !Qcompare_diff.
    symmetry. apply Qcompare_antisym.
  - intros x y z. rewrite !Qcompare_times_1, !Qcompare_diff, <- !Qle_alt. lra.
  - intros x y. rewrite !Qcompare_times_m1, !Qcompare_diff. f_equal.
    symmetry. apply Qcompare_antisym.
  - intros x y z. rewrite !Qcompare_times_m1, !Qcompare_diff.
    rewrite !Qcompare_antisym, <- !Qle_alt. lra.
Qed.

Lemma numeric_key_asc {A : Type} (key : A -> Q) (a b : A) :
  notAfter (fun a b => Fin ((key a - key b) * 1)) a b <-> key a <= key b.
Proof.
  unfold notAfter, SortCompare.
  now rewrite Qcompare_times_1, Qcompare_diff, <- Qle_alt.
Qed.

Lemma numeric_key_desc {A : Type} (key : A -> Q) (a b : A) :
  notAfter (fun a b => Fin ((key a - key b) * -1)) a b <-> key b <= key a.
Proof.
  unfold notAfter, SortCompare.
  now rewrite Qcompare_times_m1, Qcompare_diff, Qcompare_antisym, <- Qle_alt.
Qed.

Lemma Zcompare_le (z : Z) : (z ?= 0)%Z <> Gt <-> (z <= 0)%Z.
Proof. reflexivity. Qed.

Section StringKeys.

Variable localeCompare : string -> string -> Z.
Hypothesis collation : Collation localeCompare.

Lemma localeCompare_flip (a b : string) :
  (localeCompare a b ?= 0)%Z = CompOpp (localeCompare b a ?= 0)%Z.
Proof.
  destruct collation as [Hs _]. specialize (Hs a b).
  destruct (Z.compare_spec (localeCompare a b) 0),
           (Z.compare_spec (localeCompare b a) 0);
    try reflexivity; exfalso; lia.
Qed.

(** A comparator that calls [localeCompare] on string keys is consistent,
    both ways. *)
Lemma string_key_consistent {A : Type} (key : A -> string) (o : Q) :
  o = 1 \/ o = -1 ->
  Consistent (fun a b => Fin (inject_Z (localeCompare (key a) (key b)) * o)).
Proof.
  destruct collation as [_ Ht].
  intros [-> | ->]; split; unfold SortCompare.
  - intros x y. rewrite !Qcompare_times_1, !Qcompare_inject_Z.
    apply localeCompare_flip.
  - intros x y z. rewrite !Qcompare_times_1, !Qcompare_inject_Z, !Zcompare_le.
    apply Ht.
  - intros x y. rewrite !Qcompare_times_m1, !Qcompare_inject_Z. f_equal.
    apply localeCompare_flip.
  - intros x y z. rewrite !Qcompare_times_m1, !Qcompare_inject_Z.
    rewrite <- !localeCompare_flip, !Zcompare_le. intros H1 H2. revert H2 H1.
    apply Ht.
Qed.

Lemma string_key_asc {A : Type} (key : A -> string) (a b : A) :
  notAfter (fun a b => Fin (inject_Z (localeCompare (key a) (key b)) * 1)) a b
  <-> (localeCompare (key a) (key b) <= 0)%Z.
Proof.
  unfold notAfter, SortCompare.
  now rewrite Qcompare_times_1, Qcompare_inject_Z, Zcompare_le.
Qed.

Lemma string_key_same {A : Type} (key : A -> string) (a b : A) :
  sameKey (fun a b => Fin (inject_Z (localeCompare (key a) (key b)) * 1)) a b
  = (localeCompare (key a) (key b) =? 0)%Z.
Proof.
  unfold sameKey, SortCompare.
  rewrite Qcompare_times_1, Qcompare_inject_Z.
  destruct (Z.compare_spec (localeCompare (key a) (key b)) 0),
           (Z.eqb_spec (localeCompare (key a) (key b)) 0);
    try reflexivity; lia.
Qed.

End StringKeys.

Lemma Consistent_ext {A : Type} (c1 c2 : A -> A -> number) :
  (forall a b, c1 a b = c2 a b) -> Consistent c1 -> Consistent c2.
Proof.
  intros E [H1 H2].
  assert (S : forall a b, SortCompare c2 a b = SortCompare c1 a b).
  { intros a b. unfold SortCompare. now rewrite E. }
  split.
  - intros x y. rewrite !S. apply H1.
  - intros x y z. rewrite !S. apply H2.
Qed.

Section BookComparators.

Variable localeCompare : string -> string -> Z.
Variable Date_parse : string -> number.
Hypothesis collation : Collation localeCompare.

Lemma readableCompare_consistent (s : string) (o : Q) :
  o = 1 \/ o = -1 ->
  Consistent (readableCompare localeCompare Date_parse s o).
Proof.
  intros Ho. unfold readableCompare.
  destruct (String.eqb s "date") eqn:Ed.
  { now apply numeric_key_consistent. }
  destruct (String.eqb s "author") eqn:Ea.
  { apply Consistent_ext
      with (c1 := fun a b =>
                    Fin (inject_Z (localeCompare (nullish (author a) "")
                                                 (nullish (author b) "")) * o)).
    - intros a b. unfold compareBooks. now rewrite Ea.
    - now apply (string_key_consistent localeCompare collation
                   (fun b => nullish (author b) "")). }
  destruct (String.eqb s "price") eqn:Ep.
  { apply Consistent_ext
      with (c1 := fun a b => Fin ((nullish (price a) 0 - nullish (price b) 0) * o)).
    - intros a b. unfold compareBooks. now rewrite Ea, Ep.
    - now apply (numeric_key_consistent (fun b => nullish (price b) 0)). }
  destruct (String.eqb s "rating") eqn:Er.
  { apply Consistent_ext
      with (c1 := fun a b => Fin ((nullish (rating a) 0 - nullish (rating b) 0) * o)).
    - intros a b. unfold compareBooks. now rewrite Ea, Ep, Er.
    - now apply (numeric_key_consistent (fun b => nullish (rating b) 0)). }
  apply Consistent_ext
    with (c1 := fun a b =>
                  Fin (inject_Z (localeCompare (nullish (title a) "")
                                               (nullish (title b) "")) * o)).
  - intros a b. unfold compareBooks. now rewrite Ea, Ep, Er, Ed.
  - now apply (string_key_consistent localeCompare collation
                 (fun b => nullish (title b) "")).
Qed.

Lemma readableCompare_agrees (s : string) (o : Q) (a b : IBook) :
  (s = "date" -> dateReadable Date_parse a /\ dateReadable Date_parse b) ->
  compareBooks localeCompare Date_parse s o a b
  = readableCompare localeCompare Date_parse s o a b.
Proof.
  intros H. unfold readableCompare.
  destruct (String.eqb_spec s "date") as [-> | Hne]; [| reflexivity].
  destruct (H eq_refl) as [Ha Hb].
  unfold compareBooks, dateKey, dateReadable in *. simpl.
  destruct (dateOf Date_parse a); [now elim Ha |].
  destruct (dateOf Date_parse b); [now elim Hb |].
  reflexivity.
Qed.

(** On a collection of readable dates the sort stage is the sort with the
    consistent comparator. *)
Lemma sortStage_readable (f : FilterOptions) (s : string) (l : list IBook) :
  f_sortBy f = Some s -> s <> "" ->
  (s = "date" -> Forall (dateReadable Date_parse) l) ->
  sortStage localeCompare Date_parse f l
  = Array_sort (readableCompare localeCompare Date_parse s (sortOrderOf f)) l.
Proof.
  intros Es Hs Hd. unfold sortStage. rewrite Es.
  apply truthy_string_iff in Hs. rewrite Hs.
  apply Array_sort_ext. intros x y Hx Hy. unfold SortCompare.
  rewrite readableCompare_agrees; [reflexivity |].
  intros E. specialize (Hd E). rewrite Forall_forall in Hd. auto.
Qed.

(** Without a truthy [sortBy] the sort stage hands its input on. *)
Lemma sortStage_inactive (f : FilterOptions) (l : list IBook) :
  truthy_opt_string (f_sortBy f) = false ->
  sortStage localeCompare Date_parse f l = l.
Proof.
  unfold sortStage, truthy_opt_string.
  destruct (f_sortBy f) as [s|]; [| reflexivity].
  now intros ->.
Qed.

Lemma sortStage_perm (f : FilterOptions) (l : list IBook) :
  Permutation l (sortStage localeCompare Date_parse f l).
Proof.
  unfold sortStage. destruct (f_sortBy f) as [s|]; [| reflexivity].
  destruct (truthy_string s); [apply Array_sort_perm | reflexivity].
Qed.

End BookComparators.

(** ** Order of occurrence *)

Lemma sorted_precedes {A : Type} (R : A -> A -> Prop) (x y : A) (l : list A) :
  StronglySorted R l -> precedes x y l -> R x y.
Proof.
  intros S (l1 & l2 & l3 & ->). induction l1 as [|z l1 IH]; simpl in S.
  - apply StronglySorted_inv in S. destruct S as [_ F].
    rewrite Forall_forall in F. apply F. apply in_elt.
  - apply StronglySorted_inv in S. now apply IH.
Qed.

Lemma In_precedes {A : Type} (x y : A) (l : list A) :
  In x l -> In y l -> x <> y -> precedes x y l \/ precedes y x l.
Proof.
  intros Hx Hy Hne. apply in_split in Hx. destruct Hx as (l1 & l2 & ->).
  apply in_app_or in Hy. destruct Hy as [Hy | [Hy | Hy]].
  - right. apply in_split in Hy. destruct Hy as (p & q & ->).
    exists p, q, l2. now rewrite <- app_assoc.
  - now elim Hne.
  - left. apply in_split in Hy. destruct Hy as (p & q & ->).
    now exists l1, p, q.
Qed.

Lemma precedes_filter {A : Type} (p : A -> bool) (x y : A) (l : list A) :
  p x = true -> p y = true -> precedes x y l -> precedes x y (filter p l).
Proof.
  intros Px Py (l1 & l2 & l3 & ->).
  exists (filter p l1), (filter p l2), (filter p l3).
  rewrite filter_app. cbn [filter]. rewrite Px, filter_app. cbn [filter].
  now rewrite Py.
Qed.

Lemma filter_eq_app {A : Type} (p : A -> bool) (l m1 m2 : list A) :
  filter p l = (m1 ++ m2)%list ->
  exists l1 l2, l = (l1 ++ l2)%list /\ filter p l1 = m1 /\ filter p l2 = m2.
Proof.
  revert m1. induction l as [|a l IH]; intros m1 H.
  - simpl in H. symmetry in H. apply app_eq_nil in H. destruct H as [-> ->].
    now exists [], [].
  - cbn [filter] in H. destruct (p a) eqn:Pa.
    + destruct m1 as [|b m1].
      * exists [], (a :: l). cbn [filter]. rewrite Pa. auto.
      * simpl in H. injection H as <- H. destruct (IH _ H) as (l1 & l2 & -> & <- & <-).
        exists (a :: l1), l2. cbn [filter]. rewrite Pa. auto.
    + destruct (IH _ H) as (l1 & l2 & -> & <- & <-).
      exists (a :: l1), l2. cbn [filter]. rewrite Pa. auto.
Qed.

Lemma filter_eq_cons {A : Type} (p : A -> bool) (l : list A) (x : A) (m : list A) :
  filter p l = x :: m ->
  exists l1 l2, l = (l1 ++ x :: l2)%list /\ filter p l2 = m.
Proof.
  induction l as [|a l IH]; intros H; [discriminate |].
  cbn [filter] in H. destruct (p a) eqn:Pa.
  - injection H as <- <-. now exists [], l.
  - destruct (IH H) as (l1 & l2 & -> & <-). now exists (a :: l1), l2.
Qed.

Lemma filter_precedes {A : Type} (p : A -> bool) (x y : A) (l : list A) :
  precedes x y (filter p l) -> precedes x y l.
Proof.
  intros (m1 & m2 & m3 & H).
  apply filter_eq_app in H. destruct H as (l1 & r1 & -> & _ & H).
  apply filter_eq_cons in H. destruct H as (l2 & r2 & -> & H).
  apply filter_eq_app in H. destruct H as (l3 & r3 & -> & _ & H).
  apply filter_eq_cons in H. destruct H as (l4 & r4 & -> & _).
  exists (l1 ++ l2)%list, (l3 ++ l4)%list, r4.
  now rewrite <- !app_assoc.
Qed.

(** ** The instances of the built-ins *)

Lemma codePointCompare_le (a b : string) :
  (codePointCompare a b <= 0)%Z <-> String.compare a b <> Gt.
Proof.
  unfold codePointCompare. destruct (String.compare a b); split;
    try discriminate; try lia; intros H; now elim H.
Qed.

Lemma codePointCompare_collation : Collation codePointCompare.
Proof.
  split.
  - intros a b. unfold codePointCompare.
    rewrite (String.compare_antisym b a).
    now destruct (String.compare a b).
  - intros a b c. rewrite !codePointCompare_le. intros H1 H2.
    destruct (String.compare a b) eqn:Eab; [| | now elim H1].
    + apply String.compare_eq_iff in Eab. now subst.
    + destruct (String.compare b c) eqn:Ebc; [| | now elim H2].
      * apply String.compare_eq_iff in Ebc. subst. now rewrite Eab.
      * apply String_as_OT.cmp_lt in Eab, Ebc.
        pose proof (String_as_OT.lt_trans _ _ _ Eab Ebc) as Hac.
        apply String_as_OT.cmp_lt in Hac. unfold String_as_OT.cmp in Hac.
        now rewrite Hac.
Qed.

(** ** The sort stage *)

Lemma sameKey_readable lc dp (f : FilterOptions) (s : string) (k : IBook) (l : list IBook) :
  f_sortBy f = Some s ->
  (s = "date" -> dateReadable dp k /\ Forall (dateReadable dp) l) ->
  filter (sameKey (sortComparator lc dp f) k) l
  = filter (sameKey (readableCompare lc dp s (sortOrderOf f)) k) l.
Proof.
  intros Es Hd. apply filter_ext_in. intros y Hy.
  unfold sameKey, SortCompare, sortComparator. rewrite Es. cbn [nullish].
  rewrite readableCompare_agrees; [reflexivity |].
  intros E. destruct (Hd E) as [Hk Hl]. rewrite Forall_forall in Hl. auto.
Qed.

Lemma sortStage_classes lc dp (f : FilterOptions) (books : list IBook) (k : IBook) :
  Collation lc ->
  (f_sortBy f = Some "date" -> Forall (dateReadable dp) books) ->
  In k books ->
  filter (sameKey (sortComparator lc dp f) k) (sortStage lc dp f books)
  = filter (sameKey (sortComparator lc dp f) k) books.
Proof.
  intros Hc Hd Hk.
  destruct (truthy_opt_string (f_sortBy f)) eqn:T.
  - unfold truthy_opt_string in T. destruct (f_sortBy f) as [s|] eqn:Es; [| discriminate].
    apply truthy_string_iff in T.
    assert (Hd' : s = "date" -> Forall (dateReadable dp) books) by (intros ->; auto).
    rewrite (sortStage_readable lc dp f s books Es T Hd').
    assert (Hk' : s = "date" -> dateReadable dp k).
    { intros E. specialize (Hd' E). rewrite Forall_forall in Hd'. auto. }
    rewrite !(sameKey_readable lc dp f s k _ Es).
    + apply Array_sort_stable, readableCompare_consistent;
        [exact Hc | apply sortOrderOf_cases].
    + auto.
    + intros E. split; [auto |]. apply Forall_forall. intros y Hy.
      apply Array_sort_In in Hy. specialize (Hd' E).
      rewrite Forall_forall in Hd'. auto.
  - now rewrite sortStage_inactive.
Qed.

Lemma sortComparator_refl lc dp (f : FilterOptions) (books : list IBook) (a : IBook) :
  Collation lc ->
  (f_sortBy f = Some "date" -> Forall (dateReadable dp) books) ->
  In a books ->
  sameKey (sortComparator lc dp f) a a = true.
Proof.
  intros Hc Hd Ha.
  assert (E : sameKey (sortComparator lc dp f) a a
              = sameKey (readableCompare lc dp (nullish (f_sortBy f) "") (sortOrderOf f)) a a).
  { unfold sameKey, SortCompare, sortComparator.
    rewrite readableCompare_agrees; [reflexivity |].
    intros Ed. destruct (f_sortBy f) as [s|]; [| discriminate].
    cbn [nullish] in Ed. subst s. specialize (Hd eq_refl).
    rewrite Forall_forall in Hd. auto. }
  rewrite E. apply sameKey_refl, readableCompare_consistent;
    [exact Hc | apply sortOrderOf_cases].
Qed.

(** ** Order kept by the sort, for any comparator *)







Lemma StronglySorted_impl {A : Type} (R R' : A -> A -> Prop) (l : list A) :
  (forall a b, R a b -> R' a b) -> StronglySorted R l -> StronglySorted R' l.
Proof.
  intros H. induction 1 as [|a l S IH F]; constructor; [exact IH |].
  eapply Forall_impl; [| exact F]. intros b. apply H.
Qed.

(** C2 as stated does not hold: under the empty query spec the books [B], [A]
    come out as they went in, [B] first, which is not title order. *)
Lemma empty_spec_does_not_sort :
  filteredBooks codePointCompare isoDateParse [bookB; bookA] "" noFilters
  = [bookB; bookA] /\
  ~ StronglySorted
      (fun a b => (codePointCompare (nullish (title a) "") (nullish (title b) "") <= 0)%Z)
      (filteredBooks codePointCompare isoDateParse [bookB; bookA] "" noFilters).
Proof.
  split; [reflexivity |].
  intros S. apply StronglySorted_inv in S. destruct S as [_ F].
  apply Forall_inv in F. vm_compute in F. now apply F.
Qed.

(** C2, amended.  Under the empty query spec the view is the collection, in
    its own order: nothing is sorted while [sortBy] is unset.  With [sortBy]
    set to [title] and nothing else, the view is the collection rearranged
    in ascending title order (a missing title read as the empty string),
    records of equal title keeping their order. *)
Theorem empty_spec_keeps_collection_order :
  forall lc dp (C : list IBook),
    Collation lc ->
    filteredBooks lc dp C "" noFilters = C /\
    Permutation C
      (filteredBooks lc dp C "" (spreadWith noFilters (ChangeSortBy (Some "title")))) /\
    StronglySorted
      (fun a b => (lc (nullish (title a) "") (nullish (title b) "") <= 0)%Z)
      (filteredBooks lc dp C "" (spreadWith noFilters (ChangeSortBy (Some "title")))) /\
    (forall k,
        filter (fun b => (lc (nullish (title k) "") (nullish (title b) "") =? 0)%Z)
               (filteredBooks lc dp C "" (spreadWith noFilters (ChangeSortBy (Some "title"))))
        = filter (fun b => (lc (nullish (title k) "") (nullish (title b) "") =? 0)%Z) C).
Proof.
  intros lc dp C Hc.
  split; [reflexivity |].
  change (filteredBooks lc dp C "" (spreadWith noFilters (ChangeSortBy (Some "title"))))
    with (Array_sort
            (fun a b => Fin (inject_Z (lc (nullish (title a) "") (nullish (title b) "")) * 1))
            C).
  pose proof (string_key_consistent lc Hc (fun b : IBook => nullish (title b) "") 1
                (or_introl eq_refl)) as Hcons.
  split; [apply Array_sort_perm | split].
  - eapply StronglySorted_impl; [| apply Array_sort_sorted; exact Hcons].
    intros a b. apply (string_key_asc lc (fun b : IBook => nullish (title b) "")).
  - intros k.
    rewrite (filter_ext _ _ (fun b => eq_sym (string_key_same lc
               (fun b : IBook => nullish (title b) "") k b))).
    rewrite (filter_ext _ _ (fun b => eq_sym (string_key_same lc
               (fun b : IBook => nullish (title b) "") k b)) C).
    now apply Array_sort_stable.
Qed.

(** Titles b, c, a, b: unsorted under the empty spec, sorted with the two
    b's in their order under [sortBy = title]. *)
Lemma empty_spec_keeps_collection_order_witness :
  let C := [book 1 "b" "Ann" 5 None; book 2 "c" "Bob" 5 None;
            book 3 "a" "Cy" 5 None; book 4 "b" "Di" 5 None] in
  Collation codePointCompare /\
  map id (filteredBooks codePointCompare isoDateParse C "" noFilters) = [1; 2; 3; 4]%Z /\
  map id (filteredBooks codePointCompare isoDateParse C ""
            (spreadWith noFilters (ChangeSortBy (Some "title")))) = [3; 1; 4; 2]%Z.
Proof.
  intros C. split; [exact codePointCompare_collation |].
  rewrite (proj1 (empty_spec_keeps_collection_order codePointCompare isoDateParse C
                    codePointCompare_collation)).
  split; reflexivity.
Defined.

(** ** Sorting by date *)

Lemma dateOf_missing dp (b : IBook) :
  truthy_opt_string (publishedDate b) = false -> dateOf dp b = Fin 0.
Proof.
  unfold dateOf, truthy_opt_string.
  destruct (publishedDate b) as [s|]; [| reflexivity]. now intros ->.
Qed.

(** C3 as stated does not hold.  A date before 1970 is valid and has a negative
    time value, so the record without a date sorts after it in ascending
    order and before it in descending order; and a date that does not parse
    makes the comparator return NaN, where a time value of 0 would have
    given a number. *)
Lemma missing_date_not_first :
  let old := book 1 "Old" "Ann" 5 (Some "1960-01-01") in
  let undated := book 2 "Undated" "Bob" 5 None in
  let garbled := book 3 "Garbled" "Cy" 5 (Some "soon") in
  let byDate := spreadWith noFilters (ChangeSortBy (Some "date")) in
  let byDateDesc := spreadWith byDate (ChangeSortOrder (Some "desc")) in
  dateOf isoDateParse old = Fin (-315619200000) /\
  dateOf isoDateParse undated = Fin 0 /\
  sortStage codePointCompare isoDateParse byDate [undated; old] = [old; undated] /\
  sortStage codePointCompare isoDateParse byDateDesc [old; undated] = [undated; old] /\
  compareBooks codePointCompare isoDateParse "date" 1 garbled old = NaN.
Proof. repeat split; reflexivity. Qed.

(** C3, amended.  When sorting by date, a record whose [publishedDate] is
    missing or empty has time value 0.  In a collection whose dates are all
    absent or parse, such a record comes before every record with a positive
    time value (a date after 1 January 1970) when the order is ascending,
    and after every such record when the order is [desc]. *)
Theorem date_sort_missing_at_zero :
  forall lc dp (f : FilterOptions) (books : list IBook) (m a : IBook) (t : Q),
    f_sortBy f = Some "date" ->
    Forall (dateReadable dp) books ->
    In m books -> In a books ->
    truthy_opt_string (publishedDate m) = false ->
    dateOf dp a = Fin t -> 0 < t ->
    dateOf dp m = Fin 0 /\
    (sortOrderOf f = 1 ->
     precedes m a (sortStage lc dp f books) /\
     ~ precedes a m (sortStage lc dp f books)) /\
    (sortOrderOf f = -1 ->
     precedes a m (sortStage lc dp f books) /\
     ~ precedes m a (sortStage lc dp f books)).
Proof.
  intros lc dp f books m a t Es Hr Hm Ha Tm Da Ht.
  pose proof (dateOf_missing dp m Tm) as Dm.
  split; [exact Dm |].
  assert (Km : dateKey dp m == 0) by (unfold dateKey; rewrite Dm; reflexivity).
  assert (Ka : dateKey dp a == t) by (unfold dateKey; rewrite Da; reflexivity).
  assert (Hne : m <> a).
  { intros ->. rewrite Da in Dm. injection Dm as ->. revert Ht. apply Qlt_irrefl. }
  rewrite (sortStage_readable lc dp f "date" books Es ltac:(discriminate) (fun _ => Hr)).
  set (view := Array_sort _ books).
  assert (Im : In m view) by (now apply Array_sort_In).
  assert (Ia : In a view) by (now apply Array_sort_In).
  split; intros Eo.
  - assert (S : StronglySorted (fun x y => dateKey dp x <= dateKey dp y) view).
    { eapply StronglySorted_impl;
        [| apply Array_sort_sorted, (numeric_key_consistent (dateKey dp) (sortOrderOf f));
           apply sortOrderOf_cases].
      intros x y. unfold readableCompare. cbn [String.eqb Ascii.eqb Bool.eqb].
      rewrite Eo. apply numeric_key_asc. }
    assert (N : ~ precedes a m view).
    { intros P. apply (sorted_precedes _ _ _ _ S) in P. lra. }
    split; [| exact N].
    destruct (In_precedes m a view Im Ia Hne) as [P | P]; [exact P | now elim N].
  - assert (S : StronglySorted (fun x y => dateKey dp y <= dateKey dp x) view).
    { eapply StronglySorted_impl;
        [| apply Array_sort_sorted, (numeric_key_consistent (dateKey dp) (sortOrderOf f));
           apply sortOrderOf_cases].
      intros x y. unfold readableCompare. cbn [String.eqb Ascii.eqb Bool.eqb].
      rewrite Eo. apply numeric_key_desc. }
    assert (N : ~ precedes m a view).
    { intros P. apply (sorted_precedes _ _ _ _ S) in P. lra. }
    split; [| exact N].
    destruct (In_precedes a m view Ia Im (not_eq_sym Hne)) as [P | P];
      [exact P | now elim N].
Qed.

(** A dated and an undated book, sorted by date in ascending order. *)
Lemma date_sort_missing_at_zero_witness :
  let dated := book 1 "Dated" "Ann" 5 (Some "2020-05-01") in
  let undated := book 2 "Undated" "Bob" 5 None in
  let byDate := spreadWith noFilters (ChangeSortBy (Some "date")) in
  Forall (dateReadable isoDateParse) [dated; undated] /\
  dateOf isoDateParse dated = Fin 1588291200000 /\
  sortStage codePointCompare isoDateParse byDate [dated; undated] = [undated; dated] /\
  precedes undated dated (sortStage codePointCompare isoDateParse byDate [dated; undated]).
Proof.
  intros dated undated byDate.
  assert (R : Forall (dateReadable isoDateParse) [dated; undated]).
  { repeat constructor; discriminate. }
  split; [exact R | split; [reflexivity | split; [reflexivity |]]].
  apply (date_sort_missing_at_zero codePointCompare isoDateParse byDate
           [dated; undated] undated dated 1588291200000);
    try reflexivity; try exact R; simpl; auto.
Defined.

(** ** The view holds records of the collection only *)

Lemma filteredBooks_In lc dp (l : list IBook) (nq : string) (f : FilterOptions) (b : IBook) :
  In b (filteredBooks lc dp l nq f) -> In b l.
Proof.
  unfold filteredBooks. intros H.
  apply (Permutation_in _ (Permutation_sym (sortStage_perm lc dp f _))) in H.
  assert (R : In b (priceStage f (genreStage f (textStage nq l)))).
  { revert H. unfold ratingStage. destruct (f_rating f) as [r|]; [| auto].
    destruct (truthy_number r); [| auto]. intros H. now apply filter_In in H. }
  assert (P : In b (genreStage f (textStage nq l))).
  { revert R. unfold priceStage. destruct (f_priceRange f) as [[lo hi]|]; [| auto].
    destruct (truthy_opt_number lo || truthy_opt_number hi)%bool; [| auto].
    intros H'. now apply filter_In in H'. }
  assert (G : In b (textStage nq l)).
  { revert P. unfold genreStage. destruct (f_genre f) as [g|]; [| auto].
    destruct (truthy_string g); [| auto]. intros H'. now apply filter_In in H'. }
  revert G. unfold textStage. destruct (truthy_string nq); [| auto].
  intros H'. now apply filter_In in H'.
Qed.

(** ** The optimistic delete *)

(** The synchronous part of the handler: the record is gone from the
    collection and the handler waits for the import of the action. *)
Lemma onDelete_sync (st : Explorer) (bookId : Z) :
  exists k,
    runSync (onDelete st bookId) st
    = (withBooks st (without bookId (books st)), Wait ImportDeleteBookAction k).
Proof. eexists. reflexivity. Qed.

Lemma run_delete_failed (st : Explorer) (w : World) (bookId : Z) (reason : string) :
  DeleteFailed w bookId reason ->
  run w (onDelete st bookId) st
  = (withConsole (withBooks st (books st)) "Delete failed:",
     Rejected (Error reason)).
Proof.
  intros [r Ho Hs He Hr | Ho]; revert Ho; unfold deleteOutcome;
    unfold onDelete, handleDeleteBook; cbn [run tryCatch await];
    destruct (w unit ImportDeleteBookAction) as [[]|e0]; cbn [run tryCatch await];
    intros Ho.
  - rewrite Ho. cbn [run tryCatch]. rewrite Hs. cbn [negb run tryCatch].
    unfold errorOr. rewrite He. apply truthy_string_iff in Hr. rewrite Hr.
    reflexivity.
  - discriminate.
  - rewrite Ho. reflexivity.
  - injection Ho as ->. reflexivity.
Qed.

Lemma run_delete_refused (st : Explorer) (w : World) (bookId : Z) :
  DeleteRefused w bookId ->
  exists e,
    run w (onDelete st bookId) st
    = (withConsole (withBooks st (books st)) "Delete failed:", Rejected e).
Proof.
  intros [(e & Ho) | (r & Ho & Hs)]; revert Ho; unfold deleteOutcome;
    unfold onDelete, handleDeleteBook; cbn [run tryCatch await];
    destruct (w unit ImportDeleteBookAction) as [[]|e0]; cbn [run tryCatch await];
    intros Ho.
  - rewrite Ho. now exists e.
  - now exists e0.
  - rewrite Ho. cbn [run tryCatch]. rewrite Hs. cbn [negb run tryCatch].
    now eexists.
  - discriminate.
Qed.

Lemma run_delete_succeeded (st : Explorer) (w : World) (bookId : Z) :
  DeleteSucceeded w bookId ->
  run w (onDelete st bookId) st
  = run w revalidateBooks (withBooks st (without bookId (books st))).
Proof.
  intros (r & Ho & Hs). revert Ho. unfold deleteOutcome.
  unfold onDelete, handleDeleteBook; cbn [run tryCatch await].
  destruct (w unit ImportDeleteBookAction) as [[]|e0]; [| discriminate].
  intros Ho. cbn [run tryCatch await]. rewrite Ho. cbn [run tryCatch]. rewrite Hs.
  cbn [negb].
  unfold revalidateBooks. cbn [run tryCatch tryFinally andThen await].
  destruct (w Response FetchBooks) as [resp|e];
    cbn [run tryCatch tryFinally andThen await]; [| reflexivity].
  destruct (ok resp); cbn [run tryCatch tryFinally andThen await]; [| reflexivity].
  destruct (w BooksPayload (ResponseJson resp)); reflexivity.
Qed.

Lemma run_revalidate_failed (st : Explorer) (w : World) :
  FetchFailed w ->
  exists line,
    run w revalidateBooks st
    = (withIsRefreshing (line (withIsRefreshing st true)) false, Fulfilled tt) /\
    (forall s, books (line s) = books s).
Proof.
  intros [(e & Hf) | [(resp & Hf & Hok) | (resp & e & Hf & Hok & Hj)]];
    unfold revalidateBooks; cbn [run tryCatch tryFinally andThen await];
    rewrite Hf; cbn [run tryCatch tryFinally andThen await].
  - exists (fun s => withConsole s "Failed to revalidate books:"). split; reflexivity.
  - rewrite Hok. exists (fun s => s). split; reflexivity.
  - rewrite Hok. cbn [run tryCatch tryFinally andThen await]. rewrite Hj.
    exists (fun s => withConsole s "Failed to revalidate books:"). split; reflexivity.
Qed.

Lemma run_revalidate_returned (st : Explorer) (w : World) (fresh : list IBook) :
  FetchReturned w fresh ->
  run w revalidateBooks st
  = (withIsRefreshing (withBooks (withIsRefreshing st true) fresh) false, Fulfilled tt).
Proof.
  intros (resp & Hf & Hok & Hj).
  unfold revalidateBooks; cbn [run tryCatch tryFinally andThen await].
  rewrite Hf. cbn [run tryCatch tryFinally andThen await]. rewrite Hok.
  cbn [run tryCatch tryFinally andThen await]. rewrite Hj. reflexivity.
Qed.

Lemma without_two (a b : IBook) :
  id a = 1%Z -> id b = 2%Z -> without 1 [a; b] = [b].
Proof. intros Ha Hb. unfold without. cbn [filter]. now rewrite Ha, Hb. Qed.

(** C1.  The scenario of the optimistic delete.  The collection is
    [[A(id=1), B(id=2)]] and [deleteBook(1)] is called.  Up to its first
    await the handler has already replaced the collection by [[B]], and no
    view derived from it shows A.  If the remote delete fails, by a failure
    result or by an exception, the collection ends as [[A, B]] and the
    promise is rejected.  If it succeeds and the reconciliation fetch
    returns [[B]], the collection ends as [[B]] and the promise is
    fulfilled. *)
Theorem optimistic_delete_scenario :
  forall (a b : IBook) (st : Explorer) (w : World),
    id a = 1%Z -> id b = 2%Z -> books st = [a; b] ->
    (exists k, runSync (onDelete st 1) st
               = (withBooks st [b], Wait ImportDeleteBookAction k)) /\
    (forall lc dp, ~ In a (filteredBooks lc dp [b] (normalizedQuery (query st)) (filters st))) /\
    (DeleteRefused w 1 ->
       books (fst (run w (onDelete st 1) st)) = [a; b] /\
       exists e, snd (run w (onDelete st 1) st) = Rejected e) /\
    (DeleteSucceeded w 1 -> FetchReturned w [b] ->
       books (fst (run w (onDelete st 1) st)) = [b] /\
       snd (run w (onDelete st 1) st) = Fulfilled tt).
Proof.
  intros a b st w Ha Hb Hst. split; [| split; [| split]].
  - destruct (onDelete_sync st 1) as [k Hk]. exists k.
    now rewrite Hk, Hst, without_two.
  - intros lc dp Hin. apply filteredBooks_In in Hin.
    destruct Hin as [E | []]. rewrite E in Hb. rewrite Ha in Hb. discriminate.
  - intros Hr. destruct (run_delete_refused st w 1 Hr) as [e ->].
    split; [exact Hst | now exists e].
  - intros Hs Hf.
    rewrite (run_delete_succeeded st w 1 Hs), (run_revalidate_returned _ w [b] Hf).
    split; reflexivity.
Qed.

(** The scenario run on the books A and B, with a store that refuses the
    delete. *)
Lemma optimistic_delete_scenario_witness :
  let w := scriptedWorld (Fulfilled (deleteBookAction (Rejected (Error "HTTP 500"))))
                         (Rejected (Error "offline")) (Rejected (Error "offline")) in
  id bookA = 1%Z /\ id bookB = 2%Z /\
  DeleteRefused w 1 /\
  books (fst (run w (onDelete (idle [bookA; bookB]) 1) (idle [bookA; bookB])))
  = [bookA; bookB].
Proof.
  intros w.
  assert (F : DeleteRefused w 1).
  { right. exists (deleteBookAction (Rejected (Error "HTTP 500"))).
    split; reflexivity. }
  split; [reflexivity | split; [reflexivity | split; [exact F |]]].
  exact (proj1 (proj1 (proj2 (proj2 (optimistic_delete_scenario bookA bookB
                                       (idle [bookA; bookB]) w eq_refl eq_refl eq_refl)))
                  F)).
Defined.

(** C4.  When the remote delete fails, by a result with [success: false]
    that carries a reason or by an exception, the collection is put back to
    what it was before the delete and the promise is rejected with an error
    whose message is that reason.  The reason produced by the server action
    when the store fails is "Failed to delete book". *)
Theorem failed_delete_restores_and_raises :
  forall (st : Explorer) (w : World) (bookId : Z) (reason : string),
    DeleteFailed w bookId reason ->
    books (fst (run w (onDelete st bookId) st)) = books st /\
    isRefreshing (fst (run w (onDelete st bookId) st)) = isRefreshing st /\
    snd (run w (onDelete st bookId) st) = Rejected (Error reason) /\
    (forall storeError,
        success (deleteBookAction (Rejected storeError)) = false /\
        error (deleteBookAction (Rejected storeError)) = Some "Failed to delete book").
Proof.
  intros st w bookId reason F.
  rewrite (run_delete_failed st w bookId reason F).
  repeat split; reflexivity.
Qed.

(** The store fails with its own error; the action reports its reason and
    the handler raises it. *)
Lemma failed_delete_restores_and_raises_witness :
  let w := scriptedWorld (Fulfilled (deleteBookAction (Rejected (Error "HTTP 500"))))
                         (Rejected (Error "offline")) (Rejected (Error "offline")) in
  DeleteFailed w 2 "Failed to delete book" /\
  books (fst (run w (onDelete (idle [bookA; bookB]) 2) (idle [bookA; bookB])))
  = [bookA; bookB] /\
  snd (run w (onDelete (idle [bookA; bookB]) 2) (idle [bookA; bookB]))
  = Rejected (Error "Failed to delete book").
Proof.
  intros w.
  assert (F : DeleteFailed w 2 "Failed to delete book").
  { apply FailureResult with (r := deleteBookAction (Rejected (Error "HTTP 500")));
      try reflexivity. discriminate. }
  destruct (failed_delete_restores_and_raises (idle [bookA; bookB]) w 2
              "Failed to delete book" F) as (H1 & _ & H3 & _).
  split; [exact F | split; [exact H1 | exact H3]].
Defined.

(** C5.  When the remote delete succeeds and the reconciliation fetch fails
    (the request is rejected, the response is not ok, or its body cannot be
    read), the collection stays as the optimistic removal left it,
    [isRefreshing] is false again, and the promise of the handler is
    fulfilled. *)
Theorem failed_reconciliation_keeps_removal :
  forall (st : Explorer) (w : World) (bookId : Z),
    DeleteSucceeded w bookId ->
    FetchFailed w ->
    books (fst (run w (onDelete st bookId) st)) = without bookId (books st) /\
    isRefreshing (fst (run w (onDelete st bookId) st)) = false /\
    snd (run w (onDelete st bookId) st) = Fulfilled tt.
Proof.
  intros st w bookId Hs Hf.
  rewrite (run_delete_succeeded st w bookId Hs).
  destruct (run_revalidate_failed (withBooks st (without bookId (books st))) w Hf)
    as (line & -> & Hl).
  repeat split. cbn [fst books withIsRefreshing]. now rewrite Hl.
Qed.

(** A delete that succeeds while the network is down for the refresh. *)
Lemma failed_reconciliation_keeps_removal_witness :
  let w := scriptedWorld (Fulfilled (deleteBookAction (Fulfilled tt)))
                         (Rejected (Error "offline")) (Rejected (Error "offline")) in
  DeleteSucceeded w 1 /\ FetchFailed w /\
  books (fst (run w (onDelete (idle [bookA; bookB]) 1) (idle [bookA; bookB])))
  = [bookB].
Proof.
  intros w.
  assert (S : DeleteSucceeded w 1).
  { exists (deleteBookAction (Fulfilled tt)). split; reflexivity. }
  assert (F : FetchFailed w).
  { left. now exists (Error "offline"). }
  split; [exact S | split; [exact F |]].
  rewrite (proj1 (failed_reconciliation_keeps_removal (idle [bookA; bookB]) w 1 S F)).
  reflexivity.
Defined.

(** ** The search box *)

Lemma keystroke_quiet (ui : SearchUI) (text : string) (gap : nat) :
  (gap < searchDelay)%nat ->
  let ui' := uiStep (uiStep ui (TypeQuery text)) (Elapse gap) in
  debounced (debounce ui') = debounced (debounce ui) /\
  onSearchCalls ui' = onSearchCalls ui /\
  explorerQuery ui' = explorerQuery ui /\
  explorerFilters ui' = explorerFilters ui.
Proof.
  intros Hg. cbn [uiStep]. unfold debounceElapse, debounceInput.
  cbn [pending debounce debounced].
  apply Nat.leb_gt in Hg. rewrite Hg.
  unfold afterDebounce. cbn [debounce debounced]. rewrite String.eqb_refl.
  cbn [debounce debounced onSearchCalls explorerQuery explorerFilters]. auto.
Qed.

Lemma keystrokes_quiet (ks : list (string * nat)) :
  Forall (fun k => (snd k < searchDelay)%nat) ks ->
  forall ui,
    debounced (debounce (uiRun ui (keystrokes ks))) = debounced (debounce ui) /\
    onSearchCalls (uiRun ui (keystrokes ks)) = onSearchCalls ui /\
    explorerQuery (uiRun ui (keystrokes ks)) = explorerQuery ui /\
    explorerFilters (uiRun ui (keystrokes ks)) = explorerFilters ui.
Proof.
  induction 1 as [|[text gap] ks Hg _ IH]; intros ui; [now cbn |].
  cbn [keystrokes uiRun fold_left]. cbn [snd] in Hg.
  destruct (keystroke_quiet ui text gap Hg) as (E1 & E2 & E3 & E4).
  destruct (IH (uiStep (uiStep ui (TypeQuery text)) (Elapse gap)))
    as (F1 & F2 & F3 & F4).
  unfold uiRun in *. rewrite F1, F2, F3, F4. auto.
Qed.

Lemma keystroke_applied (ui : SearchUI) (text : string) (quiet : nat) :
  (searchDelay <= quiet)%nat ->
  text <> debounced (debounce ui) ->
  let ui' := uiStep (uiStep ui (TypeQuery text)) (Elapse quiet) in
  onSearchCalls ui' = (onSearchCalls ui ++ [text])%list /\
  explorerQuery ui' = text /\
  pending (debounce ui') = None.
Proof.
  intros Hq Hne. cbn [uiStep]. unfold debounceElapse, debounceInput.
  cbn [pending debounce debounced].
  apply Nat.leb_le in Hq. rewrite Hq.
  unfold afterDebounce. cbn [debounce debounced].
  apply String.eqb_neq in Hne. rewrite Hne.
  cbn [debounce debounced onSearchCalls explorerQuery pending]. auto.
Qed.

(** The debounce of the search term, on the model of [useDebounce].
    Keystrokes that follow one another within the delay, then a quiet period
    of at least the delay: [onSearch] is called once more, with the last
    text, which becomes the term of the explorer; the texts in between are
    never passed on. *)
Lemma rapid_terms_collapse :
  forall (ui : SearchUI) (ks : list (string * nat)) (last : string) (quiet : nat),
    Forall (fun k => (snd k < searchDelay)%nat) ks ->
    (searchDelay <= quiet)%nat ->
    last <> debounced (debounce ui) ->
    onSearchCalls (uiRun ui (keystrokes (ks ++ [(last, quiet)])))
    = (onSearchCalls ui ++ [last])%list /\
    explorerQuery (uiRun ui (keystrokes (ks ++ [(last, quiet)]))) = last.
Proof.
  intros ui ks last quiet Hks Hq Hne.
  assert (K : forall l1 l2, keystrokes (l1 ++ l2) = (keystrokes l1 ++ keystrokes l2)%list).
  { induction l1 as [|[t g] l1 IH]; intros l2; cbn [keystrokes app]; [reflexivity |].
    now rewrite IH. }
  rewrite K. unfold uiRun. rewrite fold_left_app. fold (uiRun ui (keystrokes ks)).
  destruct (keystrokes_quiet ks Hks ui) as (E1 & E2 & E3 & _).
  cbn [keystrokes fold_left].
  destruct (keystroke_applied (uiRun ui (keystrokes ks)) last quiet Hq) as (A1 & A2 & _).
  { now rewrite E1. }
  rewrite A1, A2, E2. split; reflexivity.
Qed.

(** "a", "ab", "abc" typed 50 ms apart in a box that has just been mounted,
    then 300 ms of quiet. *)
Lemma rapid_terms_collapse_witness :
  let mounted := {| searchQuery := ""; debounce := {| debounced := ""; pending := None |};
                    boxFilters := noFilters; explorerQuery := "";
                    explorerFilters := noFilters; onSearchCalls := [""] |} in
  Forall (fun k => (snd k < searchDelay)%nat) [("a", 50%nat); ("ab", 50%nat)] /\
  (searchDelay <= 300)%nat /\
  "abc" <> debounced (debounce mounted) /\
  onSearchCalls (uiRun mounted
                   [TypeQuery "a"; Elapse 50; TypeQuery "ab"; Elapse 50;
                    TypeQuery "abc"; Elapse 300])
  = [""; "abc"].
Proof.
  intros mounted.
  assert (H1 : Forall (fun k => (snd k < searchDelay)%nat) [("a", 50%nat); ("ab", 50%nat)]).
  { repeat constructor; apply Nat.ltb_lt; reflexivity. }
  assert (H2 : (searchDelay <= 300)%nat) by apply Nat.le_refl.
  assert (H3 : "abc" <> debounced (debounce mounted)) by discriminate.
  split; [exact H1 | split; [exact H2 | split; [exact H3 |]]].
  exact (proj1 (rapid_terms_collapse mounted [("a", 50%nat); ("ab", 50%nat)] "abc" 300
                  H1 H2 H3)).
Defined.

(** The sort select calls [handleFilterChange] twice from one render.  The
    second call spreads the filters that render saw, so the [sortBy] of the
    first call is overwritten: the explorer is left with the [sortBy] it had
    and the new [sortOrder]. *)
Remark sort_select_keeps_old_sortBy (ui : SearchUI) (sortBy sortOrder : string) :
  explorerFilters (uiStep ui (SelectSort sortBy sortOrder))
  = spreadWith (boxFilters ui) (ChangeSortOrder (Some sortOrder)) /\
  f_sortBy (explorerFilters (uiStep ui (SelectSort sortBy sortOrder)))
  = f_sortBy (boxFilters ui).
Proof. split; reflexivity. Qed.

(** C9.  Where the code departs from the claim: a change of [sortBy] does
    not take effect at once, it does not take effect at all.  In the box as
    mounted the user picks an entry of the sort select.  Its [onChange]
    calls [handleFilterChange('sortBy', ...)] and then
    [handleFilterChange('sortOrder', ...)] from one render; the second call
    spreads the filters of that render and overwrites the first.  The
    explorer is left with the new [sortOrder] and no [sortBy], so its view
    of any collection is the collection in its own order; for the entry
    "Price (Low to High)" and the books A at 12 and B at 8 the view stays
    [[A, B]], where the filters the select asked for give [[B, A]]. *)
Theorem sort_select_does_not_sort :
  forall (sortBy sortOrder : string),
    f_sortBy (explorerFilters (uiStep mountedUI (SelectSort sortBy sortOrder))) = None /\
    f_sortOrder (explorerFilters (uiStep mountedUI (SelectSort sortBy sortOrder)))
    = Some sortOrder /\
    (forall lc dp (l : list IBook),
        filteredBooks lc dp l
          (normalizedQuery (explorerQuery (uiStep mountedUI (SelectSort sortBy sortOrder))))
          (explorerFilters (uiStep mountedUI (SelectSort sortBy sortOrder)))
        = l) /\
    filteredBooks codePointCompare isoDateParse [bookA; bookB] ""
      (explorerFilters (uiStep mountedUI (SelectSort "price" "asc")))
    = [bookA; bookB] /\
    filteredBooks codePointCompare isoDateParse [bookA; bookB] ""
      (spreadWith (spreadWith noFilters (ChangeSortBy (Some "price")))
                  (ChangeSortOrder (Some "asc")))
    = [bookB; bookA].
Proof.
  intros sortBy sortOrder. repeat split.
Qed.

(** * Further properties of the engine *)

Lemma truthy_number_iff (n : number) : truthy_number n = true <-> Truthy n.
Proof.
  destruct n as [|q]; simpl; [split; [discriminate | tauto] |].
  rewrite negb_true_iff. split.
  - intros H E. apply Qeq_bool_iff in E. congruence.
  - intros H. destruct (Qeq_bool q 0) eqn:E; [| reflexivity].
    apply Qeq_bool_iff in E. now elim H.
Qed.

Lemma truthy_opt_number_iff (o : option number) :
  truthy_opt_number o = true <-> exists m, o = Some m /\ Truthy m.
Proof.
  destruct o as [m|]; simpl.
  - rewrite truthy_number_iff. split; [intros H; now exists m |].
    intros (m' & E & H). now injection E as ->.
  - split; [discriminate | intros (m & E & _); discriminate].
Qed.

Lemma num_ge_iff (a b : number) : num_ge a b = true <-> numLe b a.
Proof.
  destruct a as [|x], b as [|y]; simpl; try (split; [discriminate | tauto]).
  apply Qle_bool_iff.
Qed.

Lemma textStage_In (nq : string) (l : list IBook) (b : IBook) :
  In b (textStage nq l) <-> In b l /\ textMatches nq b.
Proof.
  unfold textStage, textMatches. destruct nq as [|c nq]; simpl.
  - split; [intros H; split; [exact H | congruence] | tauto].
  - rewrite filter_In, includes_iff. split; intros [H1 H2]; split; auto.
    apply H2. discriminate.
Qed.

Lemma genreStage_In (f : FilterOptions) (l : list IBook) (b : IBook) :
  In b (genreStage f l) <-> In b l /\ genreMatches f b.
Proof.
  unfold genreStage, genreMatches. destruct (f_genre f) as [g|].
  - destruct (truthy_string g) eqn:T.
    + apply truthy_string_iff in T.
      rewrite filter_In, String.eqb_eq. split; intros [H1 H2]; split; auto.
      intros g' E _. now injection E as <-.
    + split; [intros H; split; [exact H |] | tauto].
      intros g' E Hg. injection E as <-. apply truthy_string_iff in Hg. congruence.
  - split; [intros H; split; [exact H | discriminate] | tauto].
Qed.

Lemma priceStage_In_iff (f : FilterOptions) (l : list IBook) (b : IBook) :
  In b (priceStage f l) <-> In b l /\ priceMatches f b.
Proof.
  unfold priceStage, priceMatches. destruct (f_priceRange f) as [[lo hi]|].
  - destruct (truthy_opt_number lo || truthy_opt_number hi)%bool eqn:T.
    + rewrite filter_In, andb_true_iff.
      apply orb_true_iff in T. rewrite !truthy_opt_number_iff in T.
      split; intros [H1 H2]; split; auto.
      * intros lo' hi' E _. injection E as <- <-. destruct H2 as [Hlo Hhi].
        split; intros m ->; apply num_ge_iff; [exact Hlo | exact Hhi].
      * destruct (H2 lo hi eq_refl T) as [Hlo Hhi]. split.
        -- unfold meetsMin. destruct lo as [m|]; [| reflexivity].
           apply num_ge_iff. now apply Hlo.
        -- unfold meetsMax, num_le. destruct hi as [m|]; [| reflexivity].
           apply num_ge_iff. now apply Hhi.
    + split; [intros H; split; [exact H |] | tauto].
      intros lo' hi' E T'. injection E as <- <-.
      apply orb_false_iff in T. destruct T as [T1 T2].
      rewrite <- !truthy_opt_number_iff in T'. destruct T'; congruence.
  - split; [intros H; split; [exact H | discriminate] | tauto].
Qed.

Lemma ratingStage_In (f : FilterOptions) (l : list IBook) (b : IBook) :
  In b (ratingStage f l) <-> In b l /\ ratingMatches f b.
Proof.
  unfold ratingStage, ratingMatches. destruct (f_rating f) as [r|].
  - destruct (truthy_number r) eqn:T.
    + rewrite filter_In, num_ge_iff. split; intros [H1 H2]; split; auto.
      * intros r' E _. now injection E as <-.
      * apply H2; [reflexivity | now apply truthy_number_iff].
    + split; [intros H; split; [exact H |] | tauto].
      intros r' E T'. injection E as <-. apply truthy_number_iff in T'. congruence.
  - split; [intros H; split; [exact H | discriminate] | tauto].
Qed.

Lemma filter_length_le {A : Type} (p : A -> bool) (l : list A) :
  (List.length (filter p l) <= List.length l)%nat.
Proof.
  induction l as [|a l IH]; simpl; [lia |]. destruct (p a); simpl; lia.
Qed.

Lemma filterStages_length (nq : string) (f : FilterOptions) (l : list IBook) :
  (List.length (filterStages nq f l) <= List.length l)%nat.
Proof.
  unfold filterStages.
  assert (R : forall l', (List.length (ratingStage f l') <= List.length l')%nat).
  { intros l'. unfold ratingStage. destruct (f_rating f) as [r|]; [| lia].
    destruct (truthy_number r); [apply filter_length_le | lia]. }
  assert (P : forall l', (List.length (priceStage f l') <= List.length l')%nat).
  { intros l'. unfold priceStage. destruct (f_priceRange f) as [[lo hi]|]; [| lia].
    destruct (truthy_opt_number lo || truthy_opt_number hi)%bool;
      [apply filter_length_le | lia]. }
  assert (G : forall l', (List.length (genreStage f l') <= List.length l')%nat).
  { intros l'. unfold genreStage. destruct (f_genre f) as [g|]; [| lia].
    destruct (truthy_string g); [apply filter_length_le | lia]. }
  assert (T : forall l', (List.length (textStage nq l') <= List.length l')%nat).
  { intros l'. unfold textStage.
    destruct (truthy_string nq); [apply filter_length_le | lia]. }
  specialize (R (priceStage f (genreStage f (textStage nq l)))).
  specialize (P (genreStage f (textStage nq l))).
  specialize (G (textStage nq l)). specialize (T l). lia.
Qed.

Lemma filteredBooks_In_iff lc dp (books : list IBook) (nq : string)
      (f : FilterOptions) (b : IBook) :
  In b (filteredBooks lc dp books nq f) <->
  In b books /\ textMatches nq b /\ genreMatches f b /\
  priceMatches f b /\ ratingMatches f b.
Proof.
  unfold filteredBooks.
  assert (S : forall l, In b (sortStage lc dp f l) <-> In b l).
  { intros l. split; apply Permutation_in;
      [apply Permutation_sym |]; apply sortStage_perm. }
  rewrite S, ratingStage_In, priceStage_In_iff, genreStage_In, textStage_In.
  tauto.
Qed.

(** X1.  The view holds exactly the records of the collection that pass the
    four filters, each read as the source writes it: the normalised query
    occurs in the haystack; the genres are equal once lower-cased; the price
    is within the bounds that are present, as soon as one bound is truthy;
    the rating reaches a truthy threshold.  The sort neither adds nor drops
    a record, and the view is never longer than the collection. *)
Theorem view_membership :
  forall lc dp (books : list IBook) (nq : string) (f : FilterOptions) (b : IBook),
    (In b (filteredBooks lc dp books nq f) <->
     In b books /\ textMatches nq b /\ genreMatches f b /\
     priceMatches f b /\ ratingMatches f b) /\
    (List.length (filteredBooks lc dp books nq f) <= List.length books)%nat.
Proof.
  intros lc dp books nq f b. split.
  - apply filteredBooks_In_iff.
  - unfold filteredBooks.
    rewrite <- (Permutation_length (sortStage_perm lc dp f _)).
    apply filterStages_length.
Qed.

(** ** Filtering and sorting together *)

Lemma filter_all {A : Type} (p : A -> bool) (l : list A) :
  (forall x, In x l -> p x = true) -> filter p l = l.
Proof.
  induction l as [|a l IH]; intros H; [reflexivity |].
  cbn [filter]. rewrite (H a (or_introl eq_refl)). f_equal.
  apply IH. intros x Hx. apply H. now right.
Qed.

Lemma filter_and {A : Type} (p q : A -> bool) (l : list A) :
  filter p (filter q l) = filter (fun x => (q x && p x)%bool) l.
Proof.
  induction l as [|a l IH]; [reflexivity |].
  cbn [filter]. destruct (q a); cbn [filter andb]; [| exact IH].
  destruct (p a); now rewrite IH.
Qed.

Lemma filter_swap {A : Type} (p q : A -> bool) (l : list A) :
  filter p (filter q l) = filter q (filter p l).
Proof.
  rewrite !filter_and. apply filter_ext. intros x. apply andb_comm.
Qed.

Lemma StronglySorted_filter {A : Type} (R : A -> A -> Prop) (p : A -> bool) (l : list A) :
  StronglySorted R l -> StronglySorted R (filter p l).
Proof.
  induction 1 as [|a l S IH F]; cbn [filter]; [constructor |].
  destruct (p a); [| exact IH]. constructor; [exact IH |].
  rewrite Forall_forall in *. intros x Hx. apply filter_In in Hx. now apply F.
Qed.

Lemma StronglySorted_impl_in {A : Type} (R R' : A -> A -> Prop) (l : list A) :
  (forall a b, In a l -> In b l -> R a b -> R' a b) ->
  StronglySorted R l -> StronglySorted R' l.
Proof.
  intros H S. induction S as [|a l S IH F]; constructor.
  - apply IH. intros x y Hx Hy. apply H; now right.
  - rewrite Forall_forall in *. intros x Hx. apply H; [now left | now right | auto].
Qed.

(** For a consistent comparator, filtering the sorted list is sorting the
    filtered one. *)
Lemma filter_Array_sort {A : Type} (c : A -> A -> number) (p : A -> bool) (l : list A) :
  Consistent c ->
  filter p (Array_sort c l) = Array_sort c (filter p l).
Proof.
  intros Hc. apply Array_sort_unique; [exact Hc | |].
  - apply StronglySorted_filter, Array_sort_sorted, Hc.
  - intros k. rewrite filter_swap, Array_sort_stable by exact Hc.
    apply filter_swap.
Qed.

(** A list in order is left as it is by the sort. *)
Lemma Array_sort_sorted_id {A : Type} (c : A -> A -> number) (l : list A) :
  Consistent c -> StronglySorted (notAfter c) l -> Array_sort c l = l.
Proof.
  intros Hc S. symmetry. now apply Array_sort_unique.
Qed.

(** The four filters are one filter. *)
Lemma filterStages_filter (nq : string) (f : FilterOptions) :
  exists p, forall l, filterStages nq f l = filter p l.
Proof.
  assert (T : exists p, forall l, textStage nq l = filter p l).
  { unfold textStage. destruct (truthy_string nq).
    - eexists. reflexivity.
    - exists (fun _ => true). intros l. symmetry. now apply filter_all. }
  assert (G : exists p, forall l, genreStage f l = filter p l).
  { unfold genreStage. destruct (f_genre f) as [g|].
    - destruct (truthy_string g).
      + eexists. reflexivity.
      + exists (fun _ => true). intros l. symmetry. now apply filter_all.
    - exists (fun _ => true). intros l. symmetry. now apply filter_all. }
  assert (P : exists p, forall l, priceStage f l = filter p l).
  { unfold priceStage. destruct (f_priceRange f) as [[lo hi]|].
    - destruct (truthy_opt_number lo || truthy_opt_number hi)%bool.
      + eexists. reflexivity.
      + exists (fun _ => true). intros l. symmetry. now apply filter_all.
    - exists (fun _ => true). intros l. symmetry. now apply filter_all. }
  assert (R : exists p, forall l, ratingStage f l = filter p l).
  { unfold ratingStage. destruct (f_rating f) as [r|].
    - destruct (truthy_number r).
      + eexists. reflexivity.
      + exists (fun _ => true). intros l. symmetry. now apply filter_all.
    - exists (fun _ => true). intros l. symmetry. now apply filter_all. }
  destruct T as [pt T], G as [pg G], P as [pp P], R as [pr R].
  exists (fun x => (((pt x && pg x) && pp x) && pr x)%bool). intros l.
  unfold filterStages. rewrite R, P, G, T, !filter_and.
  apply filter_ext. intros x.
  now destruct (pt x), (pg x), (pp x), (pr x).
Qed.

Lemma Forall_filter {A : Type} (Q : A -> Prop) (p : A -> bool) (l : list A) :
  Forall Q l -> Forall Q (filter p l).
Proof.
  rewrite !Forall_forall. intros H x Hx. apply filter_In in Hx. now apply H.
Qed.

(** X2.  The order of the stages does not matter for the result: with a
    consistent [localeCompare] and, for the key [date], dates that are
    absent or parse, filtering and then sorting gives the list that sorting
    the whole collection and then filtering gives. *)
Theorem filters_commute_with_sort :
  forall lc dp (books : list IBook) (nq : string) (f : FilterOptions),
    Collation lc ->
    (f_sortBy f = Some "date" -> Forall (dateReadable dp) books) ->
    filteredBooks lc dp books nq f
    = filterStages nq f (sortStage lc dp f books).
Proof.
  intros lc dp books nq f Hc Hd.
  change (filteredBooks lc dp books nq f)
    with (sortStage lc dp f (filterStages nq f books)).
  destruct (filterStages_filter nq f) as [p Hp]. rewrite !Hp.
  destruct (truthy_opt_string (f_sortBy f)) eqn:T.
  - unfold truthy_opt_string in T.
    destruct (f_sortBy f) as [s|] eqn:Es; [| discriminate].
    apply truthy_string_iff in T.
    assert (Hd' : s = "date" -> Forall (dateReadable dp) books) by (intros ->; auto).
    rewrite (sortStage_readable lc dp f s books Es T Hd').
    rewrite (sortStage_readable lc dp f s (filter p books) Es T).
    + symmetry. apply filter_Array_sort, readableCompare_consistent;
        [exact Hc | apply sortOrderOf_cases].
    + intros E. now apply Forall_filter, Hd'.
  - now rewrite !sortStage_inactive.
Qed.

(** Sorting by price in descending order and asking for a rating of 4. *)
Lemma filters_commute_with_sort_witness :
  let C := [ratedBook 1 5 4; ratedBook 2 9 3; ratedBook 3 7 5; ratedBook 4 9 4] in
  let f := spreadWith (spreadWith (spreadWith noFilters (ChangeSortBy (Some "price")))
                         (ChangeSortOrder (Some "desc"))) (ChangeRating (Some (Fin 4))) in
  Collation codePointCompare /\
  map id (filteredBooks codePointCompare isoDateParse C "" f) = [4; 3; 1]%Z /\
  map id (filterStages "" f (sortStage codePointCompare isoDateParse f C)) = [4; 3; 1]%Z.
Proof.
  intros C f. split; [exact codePointCompare_collation |].
  rewrite <- (filters_commute_with_sort codePointCompare isoDateParse C "" f
                codePointCompare_collation ltac:(discriminate)).
  split; reflexivity.
Defined.

(** X3.  The engine is idempotent: under the same query spec the view of
    the view is the view (same hypotheses as for the sort). *)
Theorem view_idempotent :
  forall lc dp (books : list IBook) (nq : string) (f : FilterOptions),
    Collation lc ->
    (f_sortBy f = Some "date" -> Forall (dateReadable dp) books) ->
    filteredBooks lc dp (filteredBooks lc dp books nq f) nq f
    = filteredBooks lc dp books nq f.
Proof.
  intros lc dp books nq f Hc Hd.
  change (filteredBooks lc dp (filteredBooks lc dp books nq f) nq f)
    with (sortStage lc dp f (filterStages nq f (filteredBooks lc dp books nq f))).
  destruct (filterStages_filter nq f) as [p Hp].
  assert (V : filteredBooks lc dp books nq f = sortStage lc dp f (filter p books)).
  { unfold filteredBooks. fold (filterStages nq f books). now rewrite Hp. }
  rewrite Hp, V.
  assert (F : filter p (sortStage lc dp f (filter p books))
              = sortStage lc dp f (filter p books)).
  { apply filter_all. intros x Hx.
    apply (Permutation_in _ (Permutation_sym (sortStage_perm lc dp f _))) in Hx.
    now apply filter_In in Hx. }
  rewrite F.
  destruct (truthy_opt_string (f_sortBy f)) eqn:T.
  - unfold truthy_opt_string in T.
    destruct (f_sortBy f) as [s|] eqn:Es; [| discriminate].
    apply truthy_string_iff in T.
    assert (R : s = "date" -> Forall (dateReadable dp) (filter p books)).
    { intros ->. now apply Forall_filter, Hd. }
    rewrite (sortStage_readable lc dp f s (filter p books) Es T R).
    assert (Hcons : Consistent (readableCompare lc dp s (sortOrderOf f))).
    { apply readableCompare_consistent; [exact Hc | apply sortOrderOf_cases]. }
    rewrite (sortStage_readable lc dp f s _ Es T).
    + apply Array_sort_sorted_id; [exact Hcons | now apply Array_sort_sorted].
    + intros E. apply Forall_forall. intros x Hx. apply Array_sort_In in Hx.
      specialize (R E). rewrite Forall_forall in R. auto.
  - now rewrite !sortStage_inactive.
Qed.

(** The view of four titles under "a" and [sortBy = title], taken twice. *)
Lemma view_idempotent_witness :
  let C := [book 1 "banana" "Ann" 5 None; book 2 "cherry" "Bob" 5 None;
            book 3 "apple" "Cy" 5 None; book 4 "fig" "Di" 5 None] in
  let f := spreadWith noFilters (ChangeSortBy (Some "title")) in
  Collation codePointCompare /\
  map id (filteredBooks codePointCompare isoDateParse C "a" f) = [3; 1]%Z /\
  map id (filteredBooks codePointCompare isoDateParse
            (filteredBooks codePointCompare isoDateParse C "a" f) "a" f) = [3; 1]%Z.
Proof.
  intros C f. split; [exact codePointCompare_collation |].
  rewrite (view_idempotent codePointCompare isoDateParse C "a" f
             codePointCompare_collation ltac:(discriminate)).
  split; reflexivity.
Defined.

(** ** The order of the view *)

Lemma filterStages_readable dp (nq : string) (f : FilterOptions) (l : list IBook) :
  Forall (dateReadable dp) l -> Forall (dateReadable dp) (filterStages nq f l).
Proof.
  destruct (filterStages_filter nq f) as [p Hp]. rewrite Hp. apply Forall_filter.
Qed.

(** X4.  Whatever the key and the direction, the view comes out in the
    order of the comparator: no record stands before one it compares greater
    than.  This holds with a consistent [localeCompare] and, for the key
    [date], dates that are absent or parse. *)
Theorem view_is_ordered :
  forall lc dp (books : list IBook) (nq : string) (f : FilterOptions) (a b : IBook),
    Collation lc ->
    (f_sortBy f = Some "date" -> Forall (dateReadable dp) books) ->
    truthy_opt_string (f_sortBy f) = true ->
    precedes a b (filteredBooks lc dp books nq f) ->
    SortCompare (sortComparator lc dp f) a b <> Gt.
Proof.
  intros lc dp books nq f a b Hc Hd T.
  unfold truthy_opt_string in T.
  destruct (f_sortBy f) as [s|] eqn:Es; [| discriminate].
  apply truthy_string_iff in T.
  change (filteredBooks lc dp books nq f)
    with (sortStage lc dp f (filterStages nq f books)).
  assert (R : s = "date" -> Forall (dateReadable dp) (filterStages nq f books)).
  { intros ->. now apply filterStages_readable, Hd. }
  rewrite (sortStage_readable lc dp f s _ Es T R). intros P.
  refine (sorted_precedes (notAfter (sortComparator lc dp f)) a b _ _ P).
  apply StronglySorted_impl_in
    with (R := notAfter (readableCompare lc dp s (sortOrderOf f))).
  - intros x y Hx Hy. apply Array_sort_In in Hx, Hy.
    unfold notAfter, SortCompare, sortComparator. rewrite Es. cbn [nullish].
    rewrite readableCompare_agrees; [auto |].
    intros E. specialize (R E). rewrite Forall_forall in R. auto.
  - apply Array_sort_sorted, readableCompare_consistent;
      [exact Hc | apply sortOrderOf_cases].
Qed.

(** Authors in descending order. *)
Lemma view_is_ordered_witness :
  let C := [book 1 "T" "Ann" 5 None; book 2 "T" "Cy" 5 None; book 3 "T" "Bob" 5 None] in
  let f := spreadWith (spreadWith noFilters (ChangeSortBy (Some "author")))
             (ChangeSortOrder (Some "desc")) in
  Collation codePointCompare /\
  map id (filteredBooks codePointCompare isoDateParse C "" f) = [2; 3; 1]%Z /\
  SortCompare (sortComparator codePointCompare isoDateParse f)
    (book 2 "T" "Cy" 5 None) (book 1 "T" "Ann" 5 None) <> Gt.
Proof.
  intros C f.
  split; [exact codePointCompare_collation | split; [reflexivity |]].
  apply (view_is_ordered codePointCompare isoDateParse C "" f _ _
           codePointCompare_collation ltac:(discriminate) eq_refl).
  now exists [], [book 3 "T" "Bob" 5 None], [].
Defined.

Lemma sortOrderOf_desc (f : FilterOptions) :
  f_sortOrder f = Some "desc" -> sortOrderOf f = -1.
Proof. unfold sortOrderOf. now intros ->. Qed.

Lemma sortOrderOf_asc (f : FilterOptions) :
  f_sortOrder f <> Some "desc" -> sortOrderOf f = 1.
Proof.
  unfold sortOrderOf. destruct (f_sortOrder f) as [o|]; [| reflexivity].
  destruct (String.eqb_spec o "desc") as [-> | Hne]; [| reflexivity].
  intros H. now elim H.
Qed.

Lemma numeric_sorted_reading (key : IBook -> Q) (f : FilterOptions)
      (l : list IBook) (a b : IBook) :
  precedes a b (Array_sort (fun x y => Fin ((key x - key y) * sortOrderOf f)) l) ->
  (f_sortOrder f = Some "desc" -> key b <= key a) /\
  (f_sortOrder f <> Some "desc" -> key a <= key b).
Proof.
  intros P.
  pose proof (Array_sort_sorted _ (numeric_key_consistent key (sortOrderOf f)
                                     (sortOrderOf_cases f)) l) as S.
  pose proof (sorted_precedes _ _ _ _ S P) as N.
  split; intros Ho.
  - rewrite (sortOrderOf_desc f Ho) in N. now apply (numeric_key_desc key) in N.
  - rewrite (sortOrderOf_asc f Ho) in N. now apply (numeric_key_asc key) in N.
Qed.

(** X5.  Sorting by price or by rating puts the numbers in order, a missing
    value counting as 0: ascending unless [sortOrder] is exactly [desc],
    descending when it is.  Nothing is assumed of the records. *)
Theorem numeric_sort_order :
  forall lc dp (books : list IBook) (nq : string) (f : FilterOptions) (a b : IBook),
    precedes a b (filteredBooks lc dp books nq f) ->
    (f_sortBy f = Some "price" ->
     (f_sortOrder f = Some "desc" -> nullish (price b) 0 <= nullish (price a) 0) /\
     (f_sortOrder f <> Some "desc" -> nullish (price a) 0 <= nullish (price b) 0)) /\
    (f_sortBy f = Some "rating" ->
     (f_sortOrder f = Some "desc" -> nullish (rating b) 0 <= nullish (rating a) 0) /\
     (f_sortOrder f <> Some "desc" -> nullish (rating a) 0 <= nullish (rating b) 0)).
Proof.
  intros lc dp books nq f a b P. split; intros Es; revert P;
    unfold filteredBooks at 1, sortStage; rewrite Es; cbn [truthy_string];
    intros P.
  - apply (numeric_sorted_reading (fun x => nullish (price x) 0) f
             (filterStages nq f books) a b). exact P.
  - apply (numeric_sorted_reading (fun x => nullish (rating x) 0) f
             (filterStages nq f books) a b). exact P.
Qed.

(** Ratings 4, 3, none, 5 with the best first. *)
Lemma numeric_sort_order_witness :
  let unrated := book 3 "T" "A" 5 None in
  let C := [ratedBook 1 5 4; ratedBook 2 5 3; unrated; ratedBook 4 5 5] in
  let f := spreadWith (spreadWith noFilters (ChangeSortBy (Some "rating")))
             (ChangeSortOrder (Some "desc")) in
  map id (filteredBooks codePointCompare isoDateParse C "" f) = [4; 1; 2; 3]%Z /\
  nullish (rating unrated) 0 <= nullish (rating (ratedBook 2 5 3)) 0.
Proof.
  intros unrated C f. split; [reflexivity |].
  apply (proj2 (numeric_sort_order codePointCompare isoDateParse C "" f
                  (ratedBook 2 5 3) unrated
                  ltac:(now exists [ratedBook 4 5 5; ratedBook 1 5 4], [], [])));
    reflexivity.
Defined.

(** X6.  For the keys other than [date] the sorted list is the only
    rearrangement of its input that is in the order of the comparator and
    keeps the records of equal key in their order: the result does not
    depend on how the engine sorts. *)
Theorem sorted_view_unique :
  forall lc dp (f : FilterOptions) (s : string) (l v : list IBook),
    Collation lc ->
    f_sortBy f = Some s -> s <> "" -> s <> "date" ->
    StronglySorted (notAfter (sortComparator lc dp f)) v ->
    (forall k, filter (sameKey (sortComparator lc dp f) k) v
               = filter (sameKey (sortComparator lc dp f) k) l) ->
    v = sortStage lc dp f l.
Proof.
  intros lc dp f s l v Hc Es Hs Hd S HF.
  assert (E : sortComparator lc dp f = readableCompare lc dp s (sortOrderOf f)).
  { unfold sortComparator, readableCompare. rewrite Es. cbn [nullish].
    apply String.eqb_neq in Hd. now rewrite Hd. }
  rewrite (sortStage_readable lc dp f s l Es Hs ltac:(congruence)).
  rewrite E in S, HF.
  apply Array_sort_unique; [| exact S | exact HF].
  apply readableCompare_consistent; [exact Hc | apply sortOrderOf_cases].
Qed.

(** Prices 5, 3, 5: the one ordered, stable rearrangement. *)
Lemma sorted_view_unique_witness :
  let x := book 1 "X" "Ann" 5 None in
  let y := book 2 "Y" "Bob" 3 None in
  let z := book 3 "Z" "Cy" 5 None in
  let f := spreadWith noFilters (ChangeSortBy (Some "price")) in
  Collation codePointCompare /\
  [y; x; z] = sortStage codePointCompare isoDateParse f [x; y; z].
Proof.
  intros x y z f. split; [exact codePointCompare_collation |].
  apply (sorted_view_unique codePointCompare isoDateParse f "price" [x; y; z] [y; x; z]
           codePointCompare_collation eq_refl); try discriminate.
  - repeat constructor; discriminate.
  - intros k. cbn [filter].
    destruct (sameKey (sortComparator codePointCompare isoDateParse f) k x) eqn:Kx;
      destruct (sameKey (sortComparator codePointCompare isoDateParse f) k y) eqn:Ky;
      try reflexivity.
    exfalso. revert Kx Ky. unfold sameKey, SortCompare.
    change (sortComparator codePointCompare isoDateParse f k x)
      with (Fin ((nullish (price k) 0 - 5) * 1)).
    change (sortComparator codePointCompare isoDateParse f k y)
      with (Fin ((nullish (price k) 0 - 3) * 1)).
    cbv beta iota. rewrite !Qcompare_times_1, !Qcompare_diff.
    destruct (Qcompare_spec (nullish (price k) 0) 5);
      destruct (Qcompare_spec (nullish (price k) 0) 3);
      try discriminate; lra.
Defined.

(** X7.  A [sortBy] that is not one of [author], [price], [rating], [date]
    and is not empty sorts by title, as [title] itself does: the [default]
    branch of the switch.  The test is exact, so [Price] sorts by title. *)
Theorem unknown_sortBy_sorts_by_title :
  forall lc dp (f : FilterOptions) (s : string) (l : list IBook),
    f_sortBy f = Some s -> s <> "" ->
    s <> "author" -> s <> "price" -> s <> "rating" -> s <> "date" ->
    sortStage lc dp f l
    = sortStage lc dp (spreadWith f (ChangeSortBy (Some "title"))) l.
Proof.
  intros lc dp f s l Es Hs Ha Hp Hr Hd.
  unfold sortStage. rewrite Es. cbn [spreadWith f_sortBy truthy_string].
  apply truthy_string_iff in Hs. rewrite Hs.
  apply String.eqb_neq in Ha, Hp, Hr, Hd.
  apply Array_sort_ext. intros x y _ _. unfold SortCompare, compareBooks.
  now rewrite Ha, Hp, Hr, Hd.
Qed.

(** [Price], with a capital, is not the key [price]. *)
Lemma unknown_sortBy_sorts_by_title_witness :
  let C := [book 1 "b" "Ann" 1 None; book 2 "a" "Bob" 2 None] in
  map id (sortStage codePointCompare isoDateParse
            (spreadWith noFilters (ChangeSortBy (Some "Price"))) C) = [2; 1]%Z.
Proof.
  intros C.
  rewrite (unknown_sortBy_sorts_by_title codePointCompare isoDateParse
             (spreadWith noFilters (ChangeSortBy (Some "Price"))) "Price" C eq_refl);
    try discriminate.
  reflexivity.
Defined.

(** ** The filters, one by one *)

Lemma append_assoc (a b c : string) : (a ++ b) ++ c = a ++ b ++ c.
Proof. induction a as [|x a IH]; simpl; [reflexivity | now rewrite IH]. Qed.

Lemma occursIn_trans (t u s : string) : occursIn t u -> occursIn u s -> occursIn t s.
Proof.
  intros (p & q & ->) (p' & q' & ->). exists (p' ++ p), (q ++ q').
  now rewrite !append_assoc.
Qed.

Lemma occursIn_nonempty (t u : string) : occursIn t u -> t <> "" -> u <> "".
Proof.
  intros (p & q & ->) Ht E. destruct p; [| discriminate].
  destruct t; [now elim Ht | discriminate].
Qed.

(** X8.  Typing more never brings a record back: if the normalised query
    [t] occurs in the longer query [t'], every record of the view for [t']
    is in the view for [t]. *)
Theorem longer_term_narrows :
  forall lc dp (books : list IBook) (f : FilterOptions) (t t' : string) (b : IBook),
    occursIn t t' ->
    In b (filteredBooks lc dp books t' f) ->
    In b (filteredBooks lc dp books t f).
Proof.
  intros lc dp books f t t' b Ht. rewrite !filteredBooks_In_iff.
  intros (H1 & H2 & H3). split; [exact H1 | split; [| exact H3]].
  unfold textMatches in *. intros Hne.
  apply occursIn_trans with t'; [exact Ht |].
  apply H2. now apply occursIn_nonempty with t.
Qed.

(** "alpha" after "alph". *)
Lemma longer_term_narrows_witness :
  let C := [book 1 "Alpha" "Ann" 5 None; book 2 "Alphorn" "Bob" 6 None] in
  occursIn "alph" "alpha" /\
  In (book 1 "Alpha" "Ann" 5 None)
     (filteredBooks codePointCompare isoDateParse C "alph" noFilters).
Proof.
  intros C.
  assert (O : occursIn "alph" "alpha") by (now exists "", "a").
  split; [exact O |].
  apply (longer_term_narrows codePointCompare isoDateParse C noFilters "alph" "alpha" _ O).
  simpl. auto.
Defined.

Lemma trimStart_blank (s : string) : blank s -> trimStart s = "".
Proof.
  induction s as [|c s IH]; intros H; [reflexivity |].
  cbn [trimStart]. rewrite (H c (or_introl eq_refl)).
  apply IH. intros d Hd. apply H. now right.
Qed.

(** X9.  A query made of white space only (spaces, tabs, line breaks) is no
    query: its normal form is empty and the text filter is skipped. *)
Theorem blank_term_does_not_filter :
  forall lc dp (books : list IBook) (f : FilterOptions) (term : string),
    blank term ->
    normalizedQuery term = "" /\
    filteredBooks lc dp books (normalizedQuery term) f
    = sortStage lc dp f (ratingStage f (priceStage f (genreStage f books))).
Proof.
  intros lc dp books f term H.
  assert (E : normalizedQuery term = "").
  { unfold normalizedQuery, trim. now rewrite trimStart_blank. }
  split; [exact E |]. now rewrite E.
Qed.

(** A space, a tab and a line feed. *)
Lemma blank_term_does_not_filter_witness :
  let term := String " " (String (ascii_of_nat 9) (String (ascii_of_nat 10) "")) in
  blank term /\
  filteredBooks codePointCompare isoDateParse [bookA; bookB] (normalizedQuery term) noFilters
  = [bookA; bookB].
Proof.
  intros term.
  assert (H : blank term).
  { intros c [<- | [<- | [<- | []]]]; reflexivity. }
  split; [exact H |].
  now rewrite (proj2 (blank_term_does_not_filter codePointCompare isoDateParse
                        [bookA; bookB] noFilters term H)).
Defined.

Lemma lower_ascii_white (c : ascii) : isWhiteSpace (lower_ascii c) = isWhiteSpace c.
Proof. destruct c as [[] [] [] [] [] [] [] []]; reflexivity. Qed.

Lemma lower_ascii_idem (c : ascii) : lower_ascii (lower_ascii c) = lower_ascii c.
Proof. destruct c as [[] [] [] [] [] [] [] []]; reflexivity. Qed.

Lemma toLowerCase_idem (s : string) : toLowerCase (toLowerCase s) = toLowerCase s.
Proof.
  induction s as [|c s IH]; simpl; [reflexivity |].
  now rewrite lower_ascii_idem, IH.
Qed.

Lemma trimStart_lower (s : string) :
  trimStart (toLowerCase s) = toLowerCase (trimStart s).
Proof.
  induction s as [|c s IH]; [reflexivity |].
  cbn [toLowerCase trimStart]. rewrite lower_ascii_white.
  destruct (isWhiteSpace c); [exact IH | reflexivity].
Qed.

Lemma trimEnd_lower (s : string) :
  trimEnd (toLowerCase s) = toLowerCase (trimEnd s).
Proof.
  induction s as [|c s IH]; [reflexivity |].
  cbn [toLowerCase trimEnd]. rewrite IH, lower_ascii_white.
  destruct (trimEnd s); cbn [toLowerCase]; [| reflexivity].
  destruct (isWhiteSpace c); reflexivity.
Qed.

Lemma normalizedQuery_lower (s : string) :
  normalizedQuery s = trim (toLowerCase s).
Proof.
  unfold normalizedQuery, trim. now rewrite trimStart_lower, trimEnd_lower.
Qed.


Lemma blank_cons (c : ascii) (w : string) :
  blank (String c w) <-> isWhiteSpace c = true /\ blank w.
Proof.
  unfold blank. cbn [list_ascii_of_string]. split.
  - intros H. split; [apply H; now left | intros d Hd; apply H; now right].
  - intros [H1 H2] d [<- | Hd]; auto.
Qed.

Lemma trimEnd_blank (w : string) : blank w -> trimEnd w = "".
Proof.
  induction w as [|c w IH]; intros H; [reflexivity |].
  apply blank_cons in H. destruct H as [Hc Hw].
  cbn [trimEnd]. now rewrite (IH Hw), Hc.
Qed.

Lemma trimEnd_app_blank (u w : string) : blank w -> trimEnd (u ++ w) = trimEnd u.
Proof.
  intros Hw. induction u as [|c u IH]; cbn [append trimEnd].
  - now apply trimEnd_blank.
  - now rewrite IH.
Qed.

Lemma trimStart_app_blank (w u : string) : blank w -> trimStart (w ++ u) = trimStart u.
Proof.
  induction w as [|c w IH]; intros H; [reflexivity |].
  apply blank_cons in H. destruct H as [Hc Hw].
  cbn [append trimStart]. rewrite Hc. now apply IH.
Qed.

Lemma trim_app_blank (t w : string) : blank w -> trim (t ++ w) = trim t.
Proof.
  intros Hw. unfold trim. induction t as [|c t IH].
  - cbn [append]. now rewrite trimStart_blank.
  - cbn [append trimStart]. destruct (isWhiteSpace c); [exact IH |].
    now apply (trimEnd_app_blank (String c t)).
Qed.

(** X10.  The search looks neither at the case of the query nor at the
    white space around it: two queries with the same lower-case form give
    the same view, and so do a query and the same query between blanks. *)
Theorem search_ignores_case_and_blanks :
  forall lc dp (books : list IBook) (f : FilterOptions) (t t' w w' : string),
    toLowerCase t = toLowerCase t' ->
    blank w -> blank w' ->
    filteredBooks lc dp books (normalizedQuery t) f
    = filteredBooks lc dp books (normalizedQuery t') f /\
    filteredBooks lc dp books (normalizedQuery (w ++ t ++ w')) f
    = filteredBooks lc dp books (normalizedQuery t) f.
Proof.
  intros lc dp books f t t' w w' E Hw Hw'. split.
  - now rewrite !normalizedQuery_lower, E.
  - unfold normalizedQuery.
    assert (T : trim (w ++ t ++ w') = trim t).
    { rewrite <- (trim_app_blank t w' Hw'). unfold trim.
      now rewrite trimStart_app_blank. }
    now rewrite T.
Qed.

(** "  ALPH " and "alph". *)
Lemma search_ignores_case_and_blanks_witness :
  toLowerCase "ALPH" = toLowerCase "alph" /\ blank "  " /\ blank " " /\
  filteredBooks codePointCompare isoDateParse [book 1 "Alpha" "Ann" 5 None; bookB]
    (normalizedQuery ("  " ++ "ALPH" ++ " ")) noFilters
  = [book 1 "Alpha" "Ann" 5 None].
Proof.
  assert (B2 : blank "  ") by (intros c [<- | [<- | []]]; reflexivity).
  assert (B1 : blank " ") by (intros c [<- | []]; reflexivity).
  split; [reflexivity | split; [exact B2 | split; [exact B1 |]]].
  rewrite (proj2 (search_ignores_case_and_blanks codePointCompare isoDateParse
                    [book 1 "Alpha" "Ann" 5 None; bookB]
                    noFilters "ALPH" "alph" "  " " " eq_refl B2 B1)).
  rewrite (proj1 (search_ignores_case_and_blanks codePointCompare isoDateParse
                    [book 1 "Alpha" "Ann" 5 None; bookB]
                    noFilters "ALPH" "alph" "  " " " eq_refl B2 B1)).
  reflexivity.
Defined.

(** X11.  A price range whose two bounds are falsy (0, NaN or absent) is no
    range at all: the view is the one obtained without a price range, so the
    range [[0, 0]] shows every book and not the free ones only. *)
Theorem falsy_price_range_is_no_filter :
  forall lc dp (books : list IBook) (nq : string) (f : FilterOptions)
         (lo hi : option number),
    (forall m, lo = Some m -> ~ Truthy m) ->
    (forall m, hi = Some m -> ~ Truthy m) ->
    filteredBooks lc dp books nq (spreadWith f (ChangePriceRange (Some (lo, hi))))
    = filteredBooks lc dp books nq (spreadWith f (ChangePriceRange None)).
Proof.
  intros lc dp books nq f lo hi Hlo Hhi.
  assert (T : forall o, (forall m, o = Some m -> ~ Truthy m) -> truthy_opt_number o = false).
  { intros o H. destruct (truthy_opt_number o) eqn:E; [| reflexivity].
    apply truthy_opt_number_iff in E. destruct E as (m & Em & Tm).
    now elim (H m Em). }
  unfold filteredBooks, ratingStage, sortStage, sortOrderOf, priceStage, genreStage.
  cbn [spreadWith f_rating f_genre f_priceRange f_sortBy f_sortOrder].
  now rewrite (T lo Hlo), (T hi Hhi).
Qed.

(** The range [[0, 0]] over a free book and a book at 8. *)
Lemma falsy_price_range_is_no_filter_witness :
  let free := book 7 "Free" "Ann" 0 None in
  (forall m, Some (Fin 0) = Some m -> ~ Truthy m) /\
  filteredBooks codePointCompare isoDateParse [free; bookB] ""
    (spreadWith noFilters (ChangePriceRange (Some (Some (Fin 0), Some (Fin 0)))))
  = [free; bookB].
Proof.
  intros free.
  assert (Z0 : forall m, Some (Fin 0) = Some m -> ~ Truthy m).
  { intros m E T. injection E as <-. now apply T. }
  split; [exact Z0 |].
  rewrite (falsy_price_range_is_no_filter codePointCompare isoDateParse [free; bookB] ""
             noFilters (Some (Fin 0)) (Some (Fin 0)) Z0 Z0).
  reflexivity.
Defined.

(** X12.  Under a rating threshold that is a number other than 0, a record
    is in the view only if its rating, 0 when it has none, reaches the
    threshold; so a positive threshold hides every unrated book. *)
Theorem rating_threshold_hides_unrated :
  forall lc dp (books : list IBook) (nq : string) (f : FilterOptions) (r : Q) (b : IBook),
    f_rating f = Some (Fin r) -> ~ r == 0 ->
    (In b (filteredBooks lc dp books nq f) -> r <= nullish (rating b) 0) /\
    (0 < r -> rating b = None -> ~ In b (filteredBooks lc dp books nq f)).
Proof.
  intros lc dp books nq f r b Er Hr.
  assert (H : In b (filteredBooks lc dp books nq f) -> r <= nullish (rating b) 0).
  { rewrite filteredBooks_In_iff. intros (_ & _ & _ & _ & R).
    exact (R (Fin r) Er Hr). }
  split; [exact H |].
  intros Hpos Eb Hin. apply H in Hin. rewrite Eb in Hin. cbn [nullish] in Hin. lra.
Qed.

(** A threshold of 1 over a rated and an unrated book. *)
Lemma rating_threshold_hides_unrated_witness :
  let f := spreadWith noFilters (ChangeRating (Some (Fin 1))) in
  ~ 1 == 0 /\
  filteredBooks codePointCompare isoDateParse [bookA; ratedBook 5 9 4] "" f
  = [ratedBook 5 9 4] /\
  ~ In bookA (filteredBooks codePointCompare isoDateParse [bookA; ratedBook 5 9 4] "" f).
Proof.
  intros f.
  assert (N : ~ 1 == 0) by discriminate.
  split; [exact N | split; [reflexivity |]].
  apply (proj2 (rating_threshold_hides_unrated codePointCompare isoDateParse
                  [bookA; ratedBook 5 9 4] "" f 1 bookA eq_refl N));
    reflexivity.
Defined.

Lemma toLowerCase_empty (s : string) : toLowerCase s = "" <-> s = "".
Proof. destruct s; simpl; split; congruence. Qed.

(** X13.  The genre filter compares lower-cased genres: for a non-empty
    genre [g] the stage keeps exactly the records whose genre has the
    lower-case form of [g], a record without a genre is never kept, and two
    filter values with the same lower-case form select the same records. *)
Theorem genre_filter_ignores_case :
  forall (f : FilterOptions) (g g' : string) (l : list IBook) (b : IBook),
    g <> "" ->
    toLowerCase g = toLowerCase g' ->
    (In b (genreStage (spreadWith f (ChangeGenre (Some g))) l) <->
     In b l /\ toLowerCase (nullish (genre b) "") = toLowerCase g) /\
    (genre b = None -> ~ In b (genreStage (spreadWith f (ChangeGenre (Some g))) l)) /\
    genreStage (spreadWith f (ChangeGenre (Some g'))) l
    = genreStage (spreadWith f (ChangeGenre (Some g))) l.
Proof.
  intros f g g' l b Hg E.
  assert (I : In b (genreStage (spreadWith f (ChangeGenre (Some g))) l) <->
              In b l /\ toLowerCase (nullish (genre b) "") = toLowerCase g).
  { rewrite genreStage_In. unfold genreMatches. cbn [spreadWith f_genre].
    split; intros [H1 H2]; split; auto.
    intros g0 E0 _. now injection E0 as <-. }
  split; [exact I | split].
  - intros Eb Hin. apply I in Hin. destruct Hin as [_ Hin].
    rewrite Eb in Hin. cbn [nullish toLowerCase] in Hin.
    symmetry in Hin. apply (proj1 (toLowerCase_empty g)) in Hin. contradiction.
  - assert (Hg' : g' <> "").
    { intros ->. cbn [toLowerCase] in E. apply (proj1 (toLowerCase_empty g)) in E.
      contradiction. }
    unfold genreStage. cbn [spreadWith f_genre].
    apply truthy_string_iff in Hg, Hg'. now rewrite Hg, Hg', E.
Qed.

(** "fiction" and "FICTION" over a novel and a book without a genre. *)
Lemma genre_filter_ignores_case_witness :
  let novel := {| id := 1; title := Some "N"; author := Some "A"; price := Some 5;
                  description := ""; rating := None; reviewCount := None;
                  pages := None; genre := Some "Fiction"; isbn := None;
                  publishedDate := None; publisher := None; coverImage := None |} in
  "fiction" <> "" /\ toLowerCase "fiction" = toLowerCase "FICTION" /\
  genreStage (spreadWith noFilters (ChangeGenre (Some "FICTION"))) [novel; bookB]
  = [novel].
Proof.
  intros novel.
  assert (N : "fiction" <> "") by discriminate.
  split; [exact N | split; [reflexivity |]].
  rewrite (proj2 (proj2 (genre_filter_ignores_case noFilters "fiction" "FICTION"
                           [novel; bookB] novel N eq_refl))).
  reflexivity.
Defined.

(** * Further properties of the controller *)

Lemma delete_settled (w : World) (bookId : Z) :
  DeleteSucceeded w bookId \/ DeleteRefused w bookId.
Proof.
  unfold DeleteSucceeded, DeleteRefused.
  destruct (deleteOutcome w bookId) as [r|e].
  - destruct (success r) eqn:S; [left | right; right]; now exists r.
  - right. left. now exists e.
Qed.

Lemma run_revalidate_fulfils (w : World) (st : Explorer) :
  snd (run w revalidateBooks st) = Fulfilled tt /\
  isRefreshing (fst (run w revalidateBooks st)) = false /\
  query (fst (run w revalidateBooks st)) = query st /\
  filters (fst (run w revalidateBooks st)) = filters st.
Proof.
  unfold revalidateBooks. cbn [run tryCatch tryFinally andThen await].
  destruct (w Response FetchBooks) as [resp|e];
    cbn [run tryCatch tryFinally andThen await]; [| repeat split].
  destruct (ok resp); cbn [run tryCatch tryFinally andThen await]; [| repeat split].
  destruct (w BooksPayload (ResponseJson resp)); repeat split.
Qed.

(** X14.  The promise of the delete handler settles as the remote delete
    does, whatever else happens: it is fulfilled exactly when the action
    returns [success: true]; when it is rejected the collection is the one
    the handler started from and [isRefreshing] has not been touched. *)
Theorem delete_settles_as_remote :
  forall (st : Explorer) (w : World) (bookId : Z),
    (snd (run w (onDelete st bookId) st) = Fulfilled tt <-> DeleteSucceeded w bookId) /\
    (forall e, snd (run w (onDelete st bookId) st) = Rejected e ->
               books (fst (run w (onDelete st bookId) st)) = books st /\
               isRefreshing (fst (run w (onDelete st bookId) st)) = isRefreshing st).
Proof.
  intros st w bookId.
  destruct (delete_settled w bookId) as [S | R].
  - rewrite (run_delete_succeeded st w bookId S).
    destruct (run_revalidate_fulfils w (withBooks st (without bookId (books st))))
      as (E & _). rewrite E. split; [tauto | discriminate].
  - destruct (run_delete_refused st w bookId R) as [e ->]. cbn [fst snd]. split.
    + split; [discriminate |]. intros (r & Ho & Hs).
      destruct R as [(e' & He) | (r' & Hr & Hs')]; rewrite Ho in *; [discriminate |].
      injection Hr as <-. congruence.
    + intros _ _. split; reflexivity.
Qed.

(** X15.  The refresh cannot fail.  It first raises [isRefreshing] and waits
    for the fetch; whatever the fetch and the reading of the body do, its
    promise is fulfilled and [isRefreshing] is false again.  A failed fetch
    leaves the collection alone; an ok response replaces it by the [data] of
    the body, and by the empty list when the body has no [data]. *)
Theorem refresh_never_fails :
  forall (st : Explorer) (w : World),
    (exists k, runSync revalidateBooks st
               = (withIsRefreshing st true, Wait FetchBooks k)) /\
    snd (run w revalidateBooks st) = Fulfilled tt /\
    isRefreshing (fst (run w revalidateBooks st)) = false /\
    (FetchFailed w -> books (fst (run w revalidateBooks st)) = books st) /\
    (forall resp body,
        w _ FetchBooks = Fulfilled resp -> ok resp = true ->
        w _ (ResponseJson resp) = Fulfilled body ->
        books (fst (run w revalidateBooks st)) = nullish (data body) []).
Proof.
  intros st w.
  destruct (run_revalidate_fulfils w st) as (E1 & E2 & _).
  split; [eexists; reflexivity | split; [exact E1 | split; [exact E2 | split]]].
  - intros F. destruct (run_revalidate_failed st w F) as (line & -> & Hl).
    cbn [fst books withIsRefreshing]. now rewrite Hl.
  - intros resp body Hf Hok Hj.
    unfold revalidateBooks. cbn [run tryCatch tryFinally andThen await].
    rewrite Hf. cbn [run tryCatch tryFinally andThen await]. rewrite Hok.
    cbn [run tryCatch tryFinally andThen await]. rewrite Hj. reflexivity.
Qed.

(** An ok response whose body has no [data]: the collection is emptied. *)
Lemma refresh_never_fails_witness :
  let w := scriptedWorld (Fulfilled (deleteBookAction (Fulfilled tt)))
                         (Fulfilled {| ok := true |})
                         (Fulfilled {| data := None |}) in
  books (fst (run w revalidateBooks (idle [bookA; bookB]))) = [].
Proof.
  intros w.
  exact (proj2 (proj2 (proj2 (proj2 (refresh_never_fails (idle [bookA; bookB]) w))))
           {| ok := true |} {| data := None |} eq_refl eq_refl eq_refl).
Defined.

(** X16.  After a successful delete the collection is what the server
    returned, whatever that is: the fetched list replaces the optimistic
    one wholesale, so a record the server still lists is shown again. *)
Theorem reconciliation_replaces_collection :
  forall (st : Explorer) (w : World) (bookId : Z) (fresh : list IBook),
    DeleteSucceeded w bookId ->
    FetchReturned w fresh ->
    books (fst (run w (onDelete st bookId) st)) = fresh /\
    isRefreshing (fst (run w (onDelete st bookId) st)) = false /\
    snd (run w (onDelete st bookId) st) = Fulfilled tt.
Proof.
  intros st w bookId fresh S F.
  rewrite (run_delete_succeeded st w bookId S), (run_revalidate_returned _ w fresh F).
  repeat split.
Qed.

(** The server still lists both books after the delete of A. *)
Lemma reconciliation_replaces_collection_witness :
  let w := scriptedWorld (Fulfilled (deleteBookAction (Fulfilled tt)))
                         (Fulfilled {| ok := true |})
                         (Fulfilled {| data := Some [bookA; bookB] |}) in
  DeleteSucceeded w 1 /\ FetchReturned w [bookA; bookB] /\
  books (fst (run w (onDelete (idle [bookA; bookB]) 1) (idle [bookA; bookB])))
  = [bookA; bookB].
Proof.
  intros w.
  assert (S : DeleteSucceeded w 1).
  { exists (deleteBookAction (Fulfilled tt)). split; reflexivity. }
  assert (F : FetchReturned w [bookA; bookB]).
  { exists {| ok := true |}. repeat split. }
  split; [exact S | split; [exact F |]].
  exact (proj1 (reconciliation_replaces_collection (idle [bookA; bookB]) w 1
                  [bookA; bookB] S F)).
Defined.

Lemma without_In (bookId : Z) (l : list IBook) (b : IBook) :
  In b (without bookId l) <-> In b l /\ id b <> bookId.
Proof.
  unfold without. rewrite filter_In, negb_true_iff, Z.eqb_neq. reflexivity.
Qed.

(** X17.  The optimistic removal takes out every record of the given id and
    nothing else; when no record has that id the collection is left as it
    is, and the handler still goes on to call the remote delete. *)
Theorem optimistic_removal :
  forall (st : Explorer) (bookId : Z),
    exists k,
      runSync (onDelete st bookId) st
      = (withBooks st (without bookId (books st)), Wait ImportDeleteBookAction k) /\
      (forall b, In b (without bookId (books st)) <-> In b (books st) /\ id b <> bookId) /\
      ((forall b, In b (books st) -> id b <> bookId) ->
       without bookId (books st) = books st).
Proof.
  intros st bookId. destruct (onDelete_sync st bookId) as [k Hk].
  exists k. split; [exact Hk | split].
  - intros b. apply without_In.
  - intros H. apply filter_all. intros b Hb.
    apply negb_true_iff, Z.eqb_neq. now apply H.
Qed.

(** ** Two deletes at once *)

(** The rest of a delete whose optimistic removal has been done, run from
    any later state. *)
Lemma rest_delete_refused (st st' : Explorer) (w : World) (bookId : Z) :
  DeleteRefused w bookId ->
  exists e,
    run w (snd (runSync (onDelete st bookId) st)) st'
    = (withConsole (withBooks st' (books st)) "Delete failed:", Rejected e).
Proof.
  intros [(e & Ho) | (r & Ho & Hs)]; revert Ho; unfold deleteOutcome;
    unfold onDelete, handleDeleteBook; cbn [runSync snd run tryCatch await];
    destruct (w unit ImportDeleteBookAction) as [[]|e0]; cbn [run tryCatch await];
    intros Ho.
  - rewrite Ho. now exists e.
  - now exists e0.
  - rewrite Ho. cbn [run tryCatch]. rewrite Hs. cbn [negb run tryCatch].
    now eexists.
  - discriminate.
Qed.

Lemma rest_delete_succeeded (st st' : Explorer) (w : World) (bookId : Z) :
  DeleteSucceeded w bookId ->
  run w (snd (runSync (onDelete st bookId) st)) st' = run w revalidateBooks st'.
Proof.
  intros (r & Ho & Hs). revert Ho. unfold deleteOutcome.
  unfold onDelete, handleDeleteBook; cbn [runSync snd run tryCatch await].
  destruct (w unit ImportDeleteBookAction) as [[]|e0]; [| discriminate].
  intros Ho. cbn [run tryCatch await]. rewrite Ho. cbn [run tryCatch]. rewrite Hs.
  cbn [negb].
  unfold revalidateBooks. cbn [run tryCatch tryFinally andThen await].
  destruct (w Response FetchBooks) as [resp|e];
    cbn [run tryCatch tryFinally andThen await]; [| reflexivity].
  destruct (ok resp); cbn [run tryCatch tryFinally andThen await]; [| reflexivity].
  destruct (w BooksPayload (ResponseJson resp)); reflexivity.
Qed.

(** X18.  A rollback restores the whole collection its handler saw.  Let a
    first delete be in flight, and a second one be requested from the
    render that followed the first removal.  If the first delete then
    fails, the collection is again the one from before the first delete:
    the removal of the second delete is undone with it.  If the second
    delete then succeeds while its refresh fails, the collection stays so,
    showing a record the store no longer has. *)
Theorem rollback_discards_later_removal :
  forall (st : Explorer) (i j : Z) (w1 w2 : World),
    DeleteRefused w1 i ->
    let s1 := fst (runSync (onDelete st i) st) in
    let rest1 := snd (runSync (onDelete st i) st) in
    let s2 := fst (runSync (onDelete s1 j) s1) in
    let rest2 := snd (runSync (onDelete s1 j) s1) in
    let s3 := fst (run w1 rest1 s2) in
    books s2 = without j (without i (books st)) /\
    books s3 = books st /\
    (DeleteSucceeded w2 j -> FetchFailed w2 ->
     books (fst (run w2 rest2 s3)) = books st /\
     snd (run w2 rest2 s3) = Fulfilled tt).
Proof.
  intros st i j w1 w2 R s1 rest1 s2 rest2 s3.
  assert (S2 : books s2 = without j (without i (books st))) by reflexivity.
  assert (S3 : books s3 = books st).
  { unfold s3, rest1. destruct (rest_delete_refused st s2 w1 i R) as [e ->].
    reflexivity. }
  split; [exact S2 | split; [exact S3 |]].
  intros S F. unfold rest2.
  rewrite (rest_delete_succeeded s1 s3 w2 j S).
  destruct (run_revalidate_failed s3 w2 F) as (line & -> & Hl).
  cbn [fst snd books withIsRefreshing]. rewrite Hl. cbn [books withIsRefreshing].
  split; [exact S3 | reflexivity].
Qed.

(** The delete of A fails after the delete of B has started; then the
    delete of B succeeds and the refresh fails.  B stays on screen. *)
Lemma rollback_discards_later_removal_witness :
  let w1 := scriptedWorld (Fulfilled (deleteBookAction (Rejected (Error "HTTP 500"))))
                          (Rejected (Error "offline")) (Rejected (Error "offline")) in
  let w2 := scriptedWorld (Fulfilled (deleteBookAction (Fulfilled tt)))
                          (Rejected (Error "offline")) (Rejected (Error "offline")) in
  let st := idle [bookA; bookB] in
  let s1 := fst (runSync (onDelete st 1) st) in
  let s2 := fst (runSync (onDelete s1 2) s1) in
  let s3 := fst (run w1 (snd (runSync (onDelete st 1) st)) s2) in
  DeleteRefused w1 1 /\
  books s2 = [] /\
  books (fst (run w2 (snd (runSync (onDelete s1 2) s1)) s3)) = [bookA; bookB].
Proof.
  intros w1 w2 st s1 s2 s3.
  assert (R : DeleteRefused w1 1).
  { right. exists (deleteBookAction (Rejected (Error "HTTP 500"))).
    split; reflexivity. }
  split; [exact R | split; [reflexivity |]].
  refine (proj1 (proj2 (proj2 (rollback_discards_later_removal st 1 2 w1 w2 R)) _ _)).
  - exists (deleteBookAction (Fulfilled tt)). split; reflexivity.
  - left. now exists (Error "offline").
Defined.

(** ** The route behind the refresh *)

(** X19.  The refresh against the route [GET /api/books].  When the read of
    the store fails, the route answers 500 with [data: []]; the response is
    not ok, so the explorer keeps its collection instead of emptying it.
    When the read succeeds the route answers 200 with the object read, and
    the collection becomes its [data], or the empty list without one. *)
Theorem refresh_through_route :
  forall (st : Explorer) (del : Settled ActionResult),
    (forall e,
        rr_status (booksRoute (Rejected e)) = 500%Z /\
        rb_data (rr_body (booksRoute (Rejected e))) = Some [] /\
        books (fst (run (servedBy del (booksRoute (Rejected e))) revalidateBooks st))
        = books st) /\
    (forall body,
        rr_status (booksRoute (Fulfilled body)) = 200%Z /\
        books (fst (run (servedBy del (booksRoute (Fulfilled body))) revalidateBooks st))
        = nullish (rb_data body) []).
Proof.
  intros st del. split; [intros e | intros body]; repeat split.
Qed.

(** * Further properties of the search box *)

Lemma handleFilterChange_filters (rendered : FilterOptions) (c : FilterChange)
      (ui : SearchUI) :
  boxFilters (handleFilterChange rendered c ui) = spreadWith rendered c /\
  explorerFilters (handleFilterChange rendered c ui) = spreadWith rendered c.
Proof. split; reflexivity. Qed.

Lemma uiStep_text_filters (ui : SearchUI) (e : UIEvent) :
  (exists t, e = TypeQuery t) \/ (exists ms, e = Elapse ms) ->
  boxFilters (uiStep ui e) = boxFilters ui /\
  explorerFilters (uiStep ui e) = explorerFilters ui.
Proof.
  intros [[t ->] | [ms ->]]; cbn [uiStep]; [split; reflexivity |].
  unfold afterDebounce.
  destruct (String.eqb _ _); split; reflexivity.
Qed.

(** Every control leaves the box and the explorer with the same filters,
    and none of them gives the filters a [sortBy] they did not have. *)
Lemma controlStep_invariant (ui : SearchUI) (c : Control) :
  explorerFilters ui = boxFilters ui ->
  f_sortBy (boxFilters ui) = None ->
  explorerFilters (controlStep ui c) = boxFilters (controlStep ui c) /\
  f_sortBy (boxFilters (controlStep ui c)) = None.
Proof.
  intros E S. destruct c; cbn [controlStep].
  - destruct (uiStep_text_filters ui (TypeQuery text)) as [-> ->]; eauto.
  - destruct (uiStep_text_filters ui (Elapse ms)) as [-> ->]; eauto.
  - split; [reflexivity | exact S].
  - split; [reflexivity | exact S].
  - split; [reflexivity | exact S].
  - split; [reflexivity | exact S].
  - split; [reflexivity | exact S].
  - split; reflexivity.
Qed.

Lemma controlRun_invariant (cs : list Control) :
  forall ui,
    explorerFilters ui = boxFilters ui ->
    f_sortBy (boxFilters ui) = None ->
    explorerFilters (controlRun ui cs) = boxFilters (controlRun ui cs) /\
    f_sortBy (boxFilters (controlRun ui cs)) = None.
Proof.
  induction cs as [|c cs IH]; intros ui E S; [now split |].
  destruct (controlStep_invariant ui c E S) as [E' S'].
  exact (IH (controlStep ui c) E' S').
Qed.

(** X20.  No control of the box ever sets [sortBy].  The sort select calls
    [handleFilterChange] twice from one render and the second call spreads
    the filters of that render, which overwrites the [sortBy] of the first.
    From the mounted box, after any sequence of inputs, selections and
    waits, the filters of the explorer have no [sortBy], and the sort stage
    hands every list on as it is. *)
Theorem controls_never_sort :
  forall (cs : list Control) lc dp (l : list IBook),
    f_sortBy (explorerFilters (controlRun mountedUI cs)) = None /\
    sortStage lc dp (explorerFilters (controlRun mountedUI cs)) l = l /\
    (forall ui sortBy sortOrder,
        explorerFilters (controlStep ui (SortSelect sortBy sortOrder))
        = spreadWith (boxFilters ui) (ChangeSortOrder (Some sortOrder))).
Proof.
  intros cs lc dp l.
  destruct (controlRun_invariant cs mountedUI eq_refl eq_refl) as [E S].
  rewrite <- E in S.
  split; [exact S | split; [| reflexivity]].
  apply sortStage_inactive. unfold truthy_opt_string. now rewrite S.
Qed.

(** X21.  Entering a lower price bound [m] (a number other than 0) in a box
    without a price range sets the range [[m, 999]]: the explorer then
    shows exactly the records priced from [m] to 999, so a book dearer than
    999 disappears although no upper bound was entered. *)
Theorem min_input_caps_price_at_999 :
  forall (ui : SearchUI) (m : Q) (l : list IBook) (b : IBook),
    f_priceRange (boxFilters ui) = None ->
    ~ m == 0 ->
    f_priceRange (explorerFilters (controlStep ui (MinInput (Fin m))))
    = Some (Some (Fin m), Some (Fin 999)) /\
    (In b (priceStage (explorerFilters (controlStep ui (MinInput (Fin m)))) l) <->
     In b l /\ m <= nullish (price b) 0 /\ nullish (price b) 0 <= 999).
Proof.
  intros ui m l b Hn Hm.
  assert (T : truthy_number (Fin m) = true) by (now apply truthy_number_iff).
  assert (R : f_priceRange (explorerFilters (controlStep ui (MinInput (Fin m))))
              = Some (Some (Fin m), Some (Fin 999))).
  { cbn [controlStep]. unfold rangeMax. rewrite Hn, T. reflexivity. }
  split; [exact R |].
  rewrite priceStage_In_iff. unfold priceMatches. rewrite R. split.
  - intros [Hin H]. split; [exact Hin |].
    destruct (H _ _ eq_refl) as [Hlo Hhi].
    { left. exists (Fin m). now split. }
    split; [exact (Hlo _ eq_refl) | exact (Hhi _ eq_refl)].
  - intros (Hin & Hlo & Hhi). split; [exact Hin |].
    intros lo hi E _. injection E as <- <-.
    split; intros x Ex; injection Ex as <-; assumption.
Qed.

(** A lower bound of 5 and a book at 1200. *)
Lemma min_input_caps_price_at_999_witness :
  let dear := book 9 "Dear" "Cy" 1200 None in
  f_priceRange (boxFilters mountedUI) = None /\ ~ 5 == 0 /\
  priceStage (explorerFilters (controlStep mountedUI (MinInput (Fin 5))))
    [bookA; dear; bookB]
  = [bookA; bookB] /\
  ~ In dear (priceStage (explorerFilters (controlStep mountedUI (MinInput (Fin 5))))
               [bookA; dear; bookB]).
Proof.
  intros dear.
  assert (N : ~ 5 == 0) by discriminate.
  split; [reflexivity | split; [exact N | split; [reflexivity |]]].
  intros Hin.
  apply (proj1 (proj2 (min_input_caps_price_at_999 mountedUI 5 [bookA; dear; bookB] dear
                         eq_refl N))) in Hin.
  destruct Hin as (_ & _ & H). apply H. reflexivity.
Defined.

(** X22.  Emptying one of the two price inputs removes the whole range:
    the input hands over 0, which is falsy, and the handler then stores no
    range at all, so the bound typed in the other input is lost with it.
    An upper bound entered alone gets the lower bound 0. *)
Theorem emptied_price_input_drops_range :
  forall (ui : SearchUI) (v : number) (m : Q),
    ~ Truthy v ->
    f_priceRange (explorerFilters (controlStep ui (MinInput v))) = None /\
    f_priceRange (explorerFilters (controlStep ui (MaxInput v))) = None /\
    (f_priceRange (boxFilters ui) = None -> ~ m == 0 ->
     f_priceRange (explorerFilters (controlStep ui (MaxInput (Fin m))))
     = Some (Some (Fin 0), Some (Fin m))).
Proof.
  intros ui v m Hv.
  assert (T : truthy_number v = false).
  { destruct (truthy_number v) eqn:E; [| reflexivity].
    apply truthy_number_iff in E. contradiction. }
  cbn [controlStep]. rewrite T. split; [reflexivity | split; [reflexivity |]].
  intros Hn Hm.
  assert (Tm : truthy_number (Fin m) = true) by (now apply truthy_number_iff).
  unfold rangeMin. rewrite Hn, Tm. reflexivity.
Qed.

(** The range 5 to 20, then the lower input emptied. *)
Lemma emptied_price_input_drops_range_witness :
  let ui := controlRun mountedUI [MinInput (Fin 5); MaxInput (Fin 20)] in
  ~ Truthy (Fin 0) /\
  f_priceRange (explorerFilters ui) = Some (Some (Fin 5), Some (Fin 20)) /\
  f_priceRange (explorerFilters (controlStep ui (MinInput (Fin 0)))) = None.
Proof.
  intros ui.
  assert (Z0 : ~ Truthy (Fin 0)) by (intros T; now apply T).
  split; [exact Z0 | split; [reflexivity |]].
  exact (proj1 (emptied_price_input_drops_range ui (Fin 0) 1 Z0)).
Defined.

(** X23.  The box and the explorer agree on the filters: from the mounted
    box, after any sequence of inputs, selections and waits, the filters
    the explorer applies are the filters the box holds, and [clearFilters]
    brings both back to the empty object. *)
Theorem explorer_follows_box :
  forall (cs : list Control),
    explorerFilters (controlRun mountedUI cs) = boxFilters (controlRun mountedUI cs) /\
    explorerFilters (controlRun mountedUI (cs ++ [ClearAll])) = noFilters.
Proof.
  intros cs. split.
  - apply (controlRun_invariant cs mountedUI eq_refl eq_refl).
  - unfold controlRun. rewrite fold_left_app. reflexivity.
Qed.

(** * The file check of the upload route *)

Lemma allowed_type_iff (t : string) :
  existsb (String.eqb t) ALLOWED_FILE_TYPES = true <-> In t ALLOWED_FILE_TYPES.
Proof.
  rewrite existsb_exists. split.
  - intros (x & Hx & E). apply String.eqb_eq in E. now subst.
  - intros H. exists t. split; [exact H | apply String.eqb_refl].
Qed.

(** X24.  [validateFile] accepts a file exactly when its type is one of the
    four allowed types, compared as written, and its size is at most
    5 * 1024 * 1024 bytes: a file of exactly that size passes although the
    message speaks of less than 5MB.  A file of a wrong type is refused for
    its type whatever its size, and no file at all is refused first. *)
Theorem validateFile_accepts :
  forall (file : option UploadFile),
    (validateFile file = None <->
     exists f, file = Some f /\ In (file_type f) ALLOWED_FILE_TYPES /\
               (file_size f <= 5242880)%Z) /\
    (forall f, file = Some f -> ~ In (file_type f) ALLOWED_FILE_TYPES ->
               validateFile file
               = Some "Invalid file type. Only JPG, PNG, and WebP are allowed.") /\
    (file = None -> validateFile file = Some "No file provided").
Proof.
  intros file. split; [| split].
  - destruct file as [f|]; cbn [validateFile].
    + destruct (existsb (String.eqb (file_type f)) ALLOWED_FILE_TYPES) eqn:T;
        cbn [negb].
      * apply allowed_type_iff in T.
        destruct (Z.gtb_spec (file_size f) MAX_FILE_SIZE) as [G | L].
        -- split; [discriminate |]. intros (f' & E & _ & H). injection E as <-.
           unfold MAX_FILE_SIZE in G. lia.
        -- split; [| reflexivity]. intros _. exists f. unfold MAX_FILE_SIZE in L.
           repeat split; [exact T | lia].
      * split; [discriminate |]. intros (f' & E & H & _). injection E as <-.
        apply allowed_type_iff in H. congruence.
    + split; [discriminate | intros (f & E & _); discriminate].
  - intros f -> H. cbn [validateFile].
    destruct (existsb (String.eqb (file_type f)) ALLOWED_FILE_TYPES) eqn:T;
      [| reflexivity].
    apply allowed_type_iff in T. contradiction.
  - now intros ->.
Qed.

(** * The book form *)

Lemma orString_nullish (s : option string) : orString s "" = nullish s "".
Proof. destruct s as [[|c v]|]; reflexivity. Qed.

Lemma orZeroQ_eq (x : option Q) : orZeroQ x == nullish x 0.
Proof.
  destruct x as [q|]; cbn [orZeroQ nullish]; [| reflexivity].
  destruct (Qeq_bool q 0) eqn:E; [| reflexivity].
  apply Qeq_bool_iff in E. now symmetry.
Qed.

(** X25.  The form hands a record to [onSubmit] exactly when neither the
    title nor the author is empty.  The record then carries the title and
    the author of the form, and the id of the edited book; a new book, and a
    book whose id is 0, get the current time as id. *)
Theorem form_submits_titled_books_only :
  forall (book : option IBook) (now : Z) (formData : BookFormData),
    (formSubmit book now formData = None <->
     fd_title formData = "" \/ fd_author formData = "") /\
    (forall r, formSubmit book now formData = Some r ->
       title r = Some (fd_title formData) /\ author r = Some (fd_author formData) /\
       (forall b, book = Some b -> id b <> 0%Z -> id r = id b) /\
       (book = None -> id r = now) /\
       (forall b, book = Some b -> id b = 0%Z -> id r = now)).
Proof.
  intros book now formData. unfold formSubmit.
  destruct (fd_title formData) as [|c t]; cbn [truthy_string negb orb].
  { split; [split; auto | discriminate]. }
  destruct (fd_author formData) as [|d a]; cbn [truthy_string negb orb].
  { split; [split; auto | discriminate]. }
  split.
  - split; [discriminate | intros [H | H]; discriminate].
  - intros r E. injection E as <-. cbn [title author id].
    split; [reflexivity | split; [reflexivity | split; [| split]]].
    + intros b -> Hb. cbn [ofBook orId]. apply Z.eqb_neq in Hb. now rewrite Hb.
    + now intros ->.
    + intros b -> Hb. cbn [ofBook orId]. now rewrite Hb.
Qed.

(** X26.  Saving a book through the form without touching it keeps all the
    engine looks at: the record handed to [onSubmit] has the haystack, the
    price, the rating, the lower-cased genre and the date value of the book,
    and its id when that is not 0.  Only the absent optional fields become 0
    or the empty string. *)
Theorem untouched_form_keeps_engine_keys :
  forall (b : IBook) (now : Z) (t a : string),
    title b = Some t -> t <> "" -> author b = Some a -> a <> "" ->
    exists r,
      formSubmit (Some b) now (initialFormData (Some b)) = Some r /\
      haystack r = haystack b /\
      nullish (price r) 0 == nullish (price b) 0 /\
      nullish (rating r) 0 == nullish (rating b) 0 /\
      toLowerCase (nullish (genre r) "") = toLowerCase (nullish (genre b) "") /\
      (forall dp, dateOf dp r = dateOf dp b) /\
      (id b <> 0%Z -> id r = id b).
Proof.
  intros b now t a Et Ht Ea Ha.
  unfold formSubmit, initialFormData.
  cbn [fd_title fd_author fd_price fd_description fd_rating fd_reviewCount
       fd_pages fd_genre fd_isbn fd_publishedDate fd_publisher fd_coverImage ofBook].
  rewrite Et, Ea. cbn [orString].
  apply truthy_string_iff in Ht, Ha. repeat rewrite Ht. repeat rewrite Ha.
  cbn [negb orb].
  eexists. split; [reflexivity |].
  cbn [price rating genre id nullish]. repeat split.
  - unfold haystack. cbn [title author isbn nullish].
    now rewrite Et, Ea, orString_nullish.
  - rewrite (orZeroQ_eq (Some (orZeroQ (price b)))). cbn [nullish].
    apply orZeroQ_eq.
  - apply orZeroQ_eq.
  - now rewrite orString_nullish.
  - intros dp. unfold dateOf. cbn [publishedDate].
    destruct (publishedDate b) as [[|c s]|]; reflexivity.
  - intros Hb. cbn [orId]. apply Z.eqb_neq in Hb. now rewrite Hb.
Qed.

(** The book A, which has neither rating nor genre nor date. *)
Lemma untouched_form_keeps_engine_keys_witness :
  exists r,
    formSubmit (Some bookA) 1700000000000 (initialFormData (Some bookA)) = Some r /\
    rating r = Some 0 /\ genre r = Some "" /\ id r = 1%Z /\
    haystack r = haystack bookA.
Proof.
  destruct (untouched_form_keeps_engine_keys bookA 1700000000000 "A" "Ann"
              eq_refl ltac:(discriminate) eq_refl ltac:(discriminate))
    as (r & E & H & _).
  exists r. split; [exact E |].
  injection E as <-. repeat split.
Defined.

(** * The two file checks *)

(** X27.  The cover upload component and the upload route check files
    alike: a file passes the check of the component exactly when it passes
    [validateFile] of the route, so a file the component sends is never
    refused by the route for its type or its size. *)
Theorem cover_check_matches_route_check :
  forall (file : UploadFile),
    coverValidateFile file = None <-> validateFile (Some file) = None.
Proof.
  intros file. unfold coverValidateFile, validateFile, ALLOWED_FILE_TYPES, MAX_FILE_SIZE.
  destruct (existsb (String.eqb (file_type file))
                    ["image/jpeg"; "image/jpg"; "image/png"; "image/webp"]);
    cbn [negb]; [| split; discriminate].
  destruct (file_size file >? 5 * 1024 * 1024)%Z; split; congruence.
Qed.
